(** * ticktock: the timing and aggregation engine, and the format check
      of the console renderer

    A shallow embedding of [ticktock/timer.py] and of the console
    renderer of [ticktock/renderers.py]: its configuration and what
    [render] writes.

    Conventions of the embedding:
    - Python [int] is [Z]; a Python [float] is an exact rational [Q]
      (rounding of IEEE doubles is not modelled);
    - a Python [dict] is an insertion-ordered association list ([Dict]),
      because [ClockCollection.print] iterates in insertion order;
    - objects that are shared by reference ([Clock], [ClockCollection])
      live in a store and are named by their address;
    - a method is a function from the state to an outcome and the new
      state, so that what was mutated before an exception stays mutated;
    - the monotonic clock is a sequence of readings, consumed one per call
      of [time.perf_counter] / [time.perf_counter_ns]. *)

From Stdlib Require Import ZArith QArith Qfield Lia.
From stdpp Require Import base list strings pretty.

Close Scope Q_scope.
Open Scope Z_scope.

(** ** Python outcomes *)

Inductive exn : Type :=
| TypeError
| ValueError
| UnboundLocalError
| ZeroDivisionError
| DanglingReference. (* an address outside the store: not a Python error *)

Inductive result (A : Type) : Type :=
| Ok (a : A)
| Raise (e : exn).
Arguments Ok {A} a.
Arguments Raise {A} e.

(** A computation over a state [S]: the outcome and the state it leaves. *)
Definition M (S A : Type) : Type := S -> result A * S.

Definition ret {S A} (a : A) : M S A := fun s => (Ok a, s).
Definition raise {S A} (e : exn) : M S A := fun s => (Raise e, s).
Definition bind {S A B} (m : M S A) (k : A -> M S B) : M S B :=
  fun s => match m s with
           | (Ok a, s') => k a s'
           | (Raise e, s') => (Raise e, s')
           end.
Definition get {S} : M S S := fun s => (Ok s, s).
Definition modify {S} (f : S -> S) : M S unit := fun s => (Ok tt, f s).

Notation "'let*' x := m 'in' k" := (bind m (fun x => k))
  (at level 10, x name, m at level 100, k at level 200).
Notation "m ;; k" := (bind m (fun _ => k))
  (at level 100, k at level 200, right associativity).

(** ** Insertion-ordered dictionaries with string keys *)

Module Dict.
Definition t (V : Type) : Type := list (string * V).

Definition empty {V} : t V := [].

Fixpoint get {V} (k : string) (d : t V) : option V :=
  match d with
  | [] => None
  | (k', v) :: d' => if String.eqb k k' then Some v else get k d'
  end.

(** [d[k] = v]: replaces the value in place, or appends a new entry. *)
Fixpoint set {V} (k : string) (v : V) (d : t V) : t V :=
  match d with
  | [] => [(k, v)]
  | (k', v') :: d' =>
      if String.eqb k k' then (k', v) :: d' else (k', v') :: set k v d'
  end.

Definition values {V} (d : t V) : list V := map snd d.
Definition items {V} (d : t V) : list (string * V) := d.
Definition len {V} (d : t V) : nat := length d.

(** [d.get(k, default)] *)
Definition get_default {V} (k : string) (default : V) (d : t V) : V :=
  match get k d with Some v => v | None => default end.
End Dict.

(** ** AggregateTimes (timer.py, lines 45-63) *)

Record AggregateTimes : Type := mkAggregateTimes {
  avg_time_ns : Q;
  min_time_ns : Z;
  max_time_ns : Z;
  last_time_ns : Z;
  last_dt_ns : Z;
  n_periods : Z
}.

(** The dataclass constructor as [Clock.tock] calls it: the five numeric
    fields are keyword arguments, [n_periods] takes its default 1. *)
Definition AggregateTimes_init (last_time avg_time min_time max_time last_dt : Z)
  : AggregateTimes :=
  {| avg_time_ns := inject_Z avg_time;
     min_time_ns := min_time;
     max_time_ns := max_time;
     last_time_ns := last_time;
     last_dt_ns := last_dt;
     n_periods := 1 |}.

(** [max(a, m or -math.inf)]: [m or -math.inf] is [-math.inf] when [m] is
    falsy, that is 0, and [max(a, -math.inf)] is [a]. *)
Definition max_or_neg_inf (a m : Z) : Z :=
  if m =? 0 then a else Z.max a m.

(** [min(a, m or math.inf)]: [m or math.inf] is [math.inf] when [m] is 0,
    and [min(a, math.inf)] is [a]. *)
Definition min_or_inf (a m : Z) : Z :=
  if m =? 0 then a else Z.min a m.

(** [x or 0] on a number. *)
Definition or_zero (x : Q) : Q :=
  if Qeq_bool x 0 then 0%Q else x.

(** [AggregateTimes.update]: the assignments in source order; the true
    division raises when the incremented [n_periods] is 0, after the first
    four fields have been written. *)
Definition update (tock_time_ns : Z) : M AggregateTimes unit :=
  fun self =>
    let last_dt := tock_time_ns - last_time_ns self in
    let n := n_periods self + 1 in
    let mx := max_or_neg_inf tock_time_ns (max_time_ns self) in
    let mn := min_or_inf tock_time_ns (min_time_ns self) in
    if n =? 0 then
      (Raise ZeroDivisionError,
       {| avg_time_ns := avg_time_ns self;
          min_time_ns := mn;
          max_time_ns := mx;
          last_time_ns := last_time_ns self;
          last_dt_ns := last_dt;
          n_periods := n |})
    else
      (Ok tt,
       {| avg_time_ns :=
            ((or_zero (avg_time_ns self) * inject_Z (n - 1) + inject_Z last_dt)
             / inject_Z n)%Q;
          min_time_ns := mn;
          max_time_ns := mx;
          last_time_ns := tock_time_ns;
          last_dt_ns := last_dt;
          n_periods := n |}).

(** [for x in l: body(x)], stopping at the first iteration that raises. *)
Fixpoint for_each {S A} (l : list A) (body : A -> M S unit) : M S unit :=
  match l with
  | [] => ret tt
  | x :: l' => body x ;; for_each l' body
  end.

(** A run of [update] calls on one record. *)
Definition update_all (ts : list Z) : M AggregateTimes unit :=
  for_each ts update.

(** The record [Clock.tock] creates for a first sample [dt]. *)
Definition first_sample (dt : Z) : AggregateTimes :=
  AggregateTimes_init dt dt dt dt dt.

(** ** The store: clocks, collections, standard output, time *)

(** Addresses in the store. *)
Abbreviation addr := nat (only parsing).

(** What the code reads of an [inspect.FrameInfo]. *)
Record FrameInfo : Type := mkFrameInfo {
  filename : string;
  lineno : Z
}.

(** [tick_frame_info or inspect.stack()[1]]: a [FrameInfo] is a non-empty
    named tuple, hence truthy. *)
Definition frame_or (fi : option FrameInfo) (stack1 : FrameInfo) : FrameInfo :=
  match fi with Some f => f | None => stack1 end.

(** [not name] for an optional string: [None] and the empty string. *)
Definition not_name (name : option string) : bool :=
  match name with
  | None => true
  | Some s => String.eqb s ""
  end.

(** [name or default] *)
Definition name_or (name : option string) (default : string) : string :=
  match name with
  | Some s => if String.eqb s "" then default else s
  | None => default
  end.

(** [f"{fi.filename}:{fi.lineno}"] *)
Definition site_key (fi : FrameInfo) : string :=
  filename fi +:+ ":" +:+ pretty (lineno fi).

Record Clock : Type := mkClock {
  collection : addr;
  name : string;
  _tick_frame_info : FrameInfo;
  _unique_id : string;
  aggregate_times : Dict.t AggregateTimes;
  _tick_time_ns : option Z
}.

(** [_period] holds what the constructor computed: a float, or the string
    [os.environ.get] returned. *)
Inductive period_value : Type :=
| PeriodFloat (p : Q)
| PeriodStr (s : string).

Record ClockCollection : Type := mkClockCollection {
  clocks : Dict.t addr;
  _last_refresh_time_s : option Q;
  _period : period_value
}.

(** A line written by [print]: the header, or the f-string of one
    measurement, kept as the values it interpolates. *)
Inductive line : Type :=
| ClocksHeader
| ClockLine (clock_name key : string) (avg : Q) (last n : Z).

Record World : Type := mkWorld {
  environ : Dict.t string;
  perf_counter_source : nat -> Z;  (* the n-th reading of the clock, in ns *)
  clock_reads : nat;               (* readings consumed so far *)
  stdout : list line;
  collections : list ClockCollection;
  clock_heap : list Clock
}.

Definition DEFAULT_PERIOD : Z := 2.

(** The module-level default collection is the first one allocated. *)
Definition _INTIME_CLOCKS : addr := 0%nat.

(** [collection or _INTIME_CLOCKS]: a [ClockCollection] defines neither
    [__bool__] nor [__len__], hence is truthy. *)
Definition collection_or_default (c : option addr) : addr :=
  match c with Some a => a | None => _INTIME_CLOCKS end.

Definition set_stdout (o : list line) (w : World) : World :=
  {| environ := environ w; perf_counter_source := perf_counter_source w;
     clock_reads := clock_reads w; stdout := o;
     collections := collections w; clock_heap := clock_heap w |}.

Definition set_clock_reads (n : nat) (w : World) : World :=
  {| environ := environ w; perf_counter_source := perf_counter_source w;
     clock_reads := n; stdout := stdout w;
     collections := collections w; clock_heap := clock_heap w |}.

Definition set_collections (cs : list ClockCollection) (w : World) : World :=
  {| environ := environ w; perf_counter_source := perf_counter_source w;
     clock_reads := clock_reads w; stdout := stdout w;
     collections := cs; clock_heap := clock_heap w |}.

Definition set_clock_heap (h : list Clock) (w : World) : World :=
  {| environ := environ w; perf_counter_source := perf_counter_source w;
     clock_reads := clock_reads w; stdout := stdout w;
     collections := collections w; clock_heap := h |}.

Definition deref_clock (a : addr) : M World Clock :=
  fun w => match clock_heap w !! a with
           | Some c => (Ok c, w)
           | None => (Raise DanglingReference, w)
           end.

Definition deref_collection (a : addr) : M World ClockCollection :=
  fun w => match collections w !! a with
           | Some c => (Ok c, w)
           | None => (Raise DanglingReference, w)
           end.

Definition store_clock (a : addr) (c : Clock) : M World unit :=
  modify (fun w => set_clock_heap (<[a:=c]> (clock_heap w)) w).

Definition store_collection (a : addr) (c : ClockCollection) : M World unit :=
  modify (fun w => set_collections (<[a:=c]> (collections w)) w).

Definition alloc_clock (c : Clock) : M World addr :=
  fun w => (Ok (length (clock_heap w)),
            set_clock_heap (clock_heap w ++ [c]) w).

Definition alloc_collection (c : ClockCollection) : M World addr :=
  fun w => (Ok (length (collections w)),
            set_collections (collections w ++ [c]) w).

(** [time.perf_counter_ns()] *)
Definition perf_counter_ns : M World Z :=
  fun w => (Ok (perf_counter_source w (clock_reads w)),
            set_clock_reads (S (clock_reads w)) w).

Definition seconds (ns : Z) : Q := (inject_Z ns / 1000000000)%Q.

(** [time.perf_counter()]: the same clock, in seconds. *)
Definition perf_counter : M World Q :=
  let* ns := perf_counter_ns in ret (seconds ns).

Definition print_line (l : line) : M World unit :=
  modify (fun w => set_stdout (stdout w ++ [l]) w).

(** ** ClockCollection (timer.py, lines 11-33) *)

(** [os.environ.get("TICKTOCK_DEFAULT_PERIOD", float(DEFAULT_PERIOD))] *)
Definition environ_period (env : Dict.t string) : period_value :=
  match Dict.get "TICKTOCK_DEFAULT_PERIOD" env with
  | Some s => PeriodStr s
  | None => PeriodFloat (inject_Z DEFAULT_PERIOD)
  end.

(** [period or os.environ.get(...)]: a period that is [None] or zero is
    falsy. *)
Definition period_or_environ (period : option Q) (env : Dict.t string)
  : period_value :=
  match period with
  | Some p => if Qeq_bool p 0 then environ_period env else PeriodFloat p
  | None => environ_period env
  end.

(** The fields [__init__] sets. *)
Definition ClockCollection_fields (period : option Q) (env : Dict.t string)
  : ClockCollection :=
  {| clocks := Dict.empty;
     _last_refresh_time_s := None;
     _period := period_or_environ period env |}.

(** [ClockCollection(period)] *)
Definition ClockCollection_init (period : option Q) : M World addr :=
  let* w := get in
  alloc_collection (ClockCollection_fields period (environ w)).

(** The line [print] writes for one entry of [clock.aggregate_times]. *)
Definition clock_line (clock : Clock) (entry : string * AggregateTimes) : line :=
  ClockLine (name clock) (fst entry)
            (avg_time_ns (snd entry)) (last_time_ns (snd entry))
            (n_periods (snd entry)).

Definition ClockCollection_print (self : addr) : M World unit :=
  let* c := deref_collection self in
  print_line ClocksHeader ;;
  for_each (Dict.values (clocks c)) (fun a =>
    let* clock := deref_clock a in
    for_each (Dict.items (aggregate_times clock)) (fun entry =>
      print_line (clock_line clock entry))).

(** [x > period] for a float [x]: comparing a float with a string raises. *)
Definition gt_period (x : Q) (period : period_value) : M World bool :=
  match period with
  | PeriodFloat p => ret (negb (Qle_bool x p))
  | PeriodStr _ => raise TypeError
  end.

(** [ClockCollection.update]: [or] short-circuits, so the clock is read in
    the condition only when a refresh time is recorded. *)
Definition ClockCollection_update (self : addr) : M World unit :=
  let* c := deref_collection self in
  let* due :=
    match _last_refresh_time_s c with
    | None => ret true
    | Some last =>
        let* now := perf_counter in
        gt_period (now - last)%Q (_period c)
    end in
  if due then
    ClockCollection_print self ;;
    let* now := perf_counter in
    let* c := deref_collection self in
    store_collection self
      {| clocks := clocks c;
         _last_refresh_time_s := Some now;
         _period := _period c |}
  else ret tt.

(** ** Clock (timer.py, lines 66-113) *)

Definition register_clock (uid : string) (a : addr) (c : ClockCollection)
  : ClockCollection :=
  {| clocks := Dict.set uid a (clocks c);
     _last_refresh_time_s := _last_refresh_time_s c;
     _period := _period c |}.

(** [Clock(name, collection, tick_time_ns, tick_frame_info)]; [stack1] is
    the frame of the caller, what [inspect.stack()[1]] is there. *)
Definition Clock_init (name : option string) (collection : option addr)
    (tick_time_ns : option Z) (tick_frame_info : option FrameInfo)
    (stack1 : FrameInfo) : M World addr :=
  let coll := collection_or_default collection in
  let* c := deref_collection coll in
  let nm := name_or name ("clock_" +:+ pretty (Dict.len (clocks c))) in
  let fi := frame_or tick_frame_info stack1 in
  let uid := name_or name (site_key fi) in
  let* self := alloc_clock
    {| collection := coll;
       name := nm;
       _tick_frame_info := fi;
       _unique_id := uid;
       aggregate_times := Dict.empty;
       _tick_time_ns := tick_time_ns |} in
  store_collection coll (register_clock uid self c) ;;
  ret self.

Definition set_tick_time (t : option Z) (c : Clock) : Clock :=
  {| collection := collection c; name := name c;
     _tick_frame_info := _tick_frame_info c; _unique_id := _unique_id c;
     aggregate_times := aggregate_times c;
     _tick_time_ns := t |}.

Definition set_aggregate_times (d : Dict.t AggregateTimes) (c : Clock) : Clock :=
  {| collection := collection c; name := name c;
     _tick_frame_info := _tick_frame_info c; _unique_id := _unique_id c;
     aggregate_times := d;
     _tick_time_ns := _tick_time_ns c |}.

(** [Clock.tick] *)
Definition Clock_tick (self : addr) : M World Z :=
  let* c := deref_clock self in
  let* t := perf_counter_ns in
  store_clock self (set_tick_time (Some t) c) ;;
  ret t.

(** The label [Clock.tock] uses: the given name, or
    [f"{caller.filename}:{self._tick_frame_info.lineno}-{caller.lineno}"]. *)
Definition tock_label (c : Clock) (name : option string) (stack1 : FrameInfo)
  : string :=
  if not_name name then
    filename stack1 +:+ ":" +:+ pretty (lineno (_tick_frame_info c))
      +:+ "-" +:+ pretty (lineno stack1)
  else name_or name "".

(** [tock_time_ns - self._tick_time_ns]: subtracting [None] raises. *)
Definition sub_tick (tock_time_ns : Z) (tick : option Z) : M World Z :=
  match tick with
  | Some t => ret (tock_time_ns - t)
  | None => raise TypeError
  end.

(** [Clock.tock] *)
Definition Clock_tock (self : addr) (name : option string)
    (stack1 : FrameInfo) : M World Z :=
  let* c := deref_clock self in
  let name := tock_label c name stack1 in
  let* tock_time_ns := perf_counter_ns in
  match Dict.get name (aggregate_times c) with
  | Some r =>
      let '(res, r') := update tock_time_ns r in
      store_clock self
        (set_aggregate_times (Dict.set name r' (aggregate_times c)) c) ;;
      (fun w => (res, w))
  | None =>
      let* dt := sub_tick tock_time_ns (_tick_time_ns c) in
      store_clock self
        (set_aggregate_times
           (Dict.set name (AggregateTimes_init dt dt dt dt dt)
                     (aggregate_times c)) c)
  end ;;
  ClockCollection_update (collection c) ;;
  ret tock_time_ns.

(** ** The entry point [tick] (timer.py, lines 116-137) *)

(** Reading a local variable: one that no assignment has reached yet is
    unbound. *)
Definition read_local {A} (v : option A) : M World A :=
  match v with
  | Some a => ret a
  | None => raise UnboundLocalError
  end.

(** The frame of [tick] itself, which [Clock.__init__] would see as its
    caller; the file name is that of the installed module. *)
Definition tick_frame : FrameInfo :=
  {| filename := "ticktock/timer.py"; lineno := 130 |}.

(** [tick(name, collection, tick_time_ns)]; [stack1] is the call site.
    [tick_frame_info] is assigned only under [if not name]. *)
Definition tick (name : option string) (collection : option addr)
    (tick_time_ns : option Z) (stack1 : FrameInfo) : M World addr :=
  let collection := collection_or_default collection in
  let tick_frame_info : option FrameInfo :=
    if not_name name then Some stack1 else None in
  let* found :=
    if not_name name then
      let* c := deref_collection collection in
      ret (Dict.get (site_key stack1) (clocks c))
    else ret None in
  match found with
  | Some clock =>
      Clock_tick clock ;;
      ret clock
  | None =>
      let* fi := read_local tick_frame_info in
      let* clock := Clock_init name (Some collection) tick_time_ns (Some fi)
                               tick_frame in
      Clock_tick clock ;;
      ret clock
  end.

(** The world after the module is imported: [_INTIME_CLOCKS] is the only
    object. *)
Definition import_timer (env : Dict.t string) (source : nat -> Z) : World :=
  {| environ := env; perf_counter_source := source; clock_reads := 0%nat;
     stdout := [];
     collections := [ClockCollection_fields None env];
     clock_heap := [] |}.

(** ** StandardRenderer: configuration (renderers.py, lines 24-96) *)

Module Renderers.

(** The keys of the two field tables; their values are the accessors
    that [render_times] applies. *)
Definition TIME_FIELDS : list string :=
  ["mean"; "std"; "min"; "max"; "last"].

Definition FIELDS : list string :=
  ["count"; "tick_name"; "tock_name"; "tick_line"; "tock_line";
   "tick_filename"; "tock_filename"; "avg_time_ns"; "std_time_ns";
   "min_time_ns"; "max_time_ns"; "last_time_ns"].

Definition FORMATS : Dict.t string :=
  [("short", "⏱️ [{tick_name}-{tock_name}] {mean} count={count}");
   ("long", "⏱️ [{tick_name}-{tock_name}] "
            +:+ "{mean} ({std} std) min={min} max={max}"
            +:+ " count={count} last={last}")].

(** [k in table] *)
Definition is_key (k : string) (table : list string) : bool :=
  existsb (String.eqb k) table.

(** One tuple yielded by [string.Formatter().parse]. *)
Record parsed_item : Type := mkItem {
  literal_text : string;
  field_name : option string;
  format_spec : option string;
  conversion : option string
}.

Inductive stream : Type :=
| Stderr
| Stream (id : nat).

Record StandardRenderer : Type := mkStandardRenderer {
  _format : string;
  _fields : list string;
  _time_fields : list string;
  _max_terms : option Z;      (* no class default: unset before [__init__] *)
  _out : option stream;       (* likewise *)
  _no_update : bool;
  _has_printed : option Z     (* set by [set_format] only *)
}.

(** An instance before [__init__] has run: the class attributes. *)
Definition blank : StandardRenderer :=
  {| _format := ""; _fields := []; _time_fields := [];
     _max_terms := None; _out := None; _no_update := false;
     _has_printed := None |}.

Definition reset_format (f : string) (r : StandardRenderer) : StandardRenderer :=
  {| _format := f; _fields := []; _time_fields := [];
     _max_terms := _max_terms r; _out := _out r;
     _no_update := _no_update r; _has_printed := _has_printed r |}.

Definition append_field (f : string) (r : StandardRenderer) : StandardRenderer :=
  {| _format := _format r; _fields := _fields r ++ [f];
     _time_fields := _time_fields r;
     _max_terms := _max_terms r; _out := _out r;
     _no_update := _no_update r; _has_printed := _has_printed r |}.

Definition append_time_field (f : string) (r : StandardRenderer)
  : StandardRenderer :=
  {| _format := _format r; _fields := _fields r;
     _time_fields := _time_fields r ++ [f];
     _max_terms := _max_terms r; _out := _out r;
     _no_update := _no_update r; _has_printed := _has_printed r |}.

Definition set_has_printed (n : Z) (r : StandardRenderer) : StandardRenderer :=
  {| _format := _format r; _fields := _fields r;
     _time_fields := _time_fields r;
     _max_terms := _max_terms r; _out := _out r;
     _no_update := _no_update r; _has_printed := Some n |}.

Definition set_options (max_terms : Z) (out : stream) (no_update : bool)
    (r : StandardRenderer) : StandardRenderer :=
  {| _format := _format r; _fields := _fields r;
     _time_fields := _time_fields r;
     _max_terms := Some max_terms; _out := Some out;
     _no_update := no_update; _has_printed := _has_printed r |}.

Section Configuration.
(** [string.Formatter().parse] belongs to the Python library: the
    tuples it yields for a format string, and the exception that ends
    the iteration when the string is malformed. *)
Variable parse : string -> list parsed_item * option exn.

(** [ticktock.utils.value_from_env(key, default)] is not part of the
    sources at hand. *)
Variable value_from_env : string -> string -> string.

(** The body of the loop of [set_format]. *)
Definition check_item (it : parsed_item) : M StandardRenderer unit :=
  match field_name it with
  | None => ret tt
  | Some f =>
      if is_key f FIELDS then modify (append_field f)
      else if is_key f TIME_FIELDS then modify (append_time_field f)
      else raise ValueError
  end.

(** [StandardRenderer.set_format] *)
Definition set_format (format : string) : M StandardRenderer unit :=
  let format := Dict.get_default format format FORMATS in
  modify (reset_format format) ;;
  for_each (fst (parse format)) check_item ;;
  match snd (parse format) with
  | Some e => raise e
  | None => modify (set_has_printed 0)
  end.

(** [StandardRenderer.__init__] *)
Definition StandardRenderer_init (format : option string) (out : stream)
    (max_terms : Z) (no_update : bool) : M StandardRenderer unit :=
  set_format (name_or format (value_from_env "TICKTOCK_DEFAULT_FORMAT" "short")) ;;
  modify (set_options max_terms out no_update).

(** [StandardRenderer(format, out, max_terms, no_update)]: the new
    object, unless [__init__] raises. *)
Definition StandardRenderer_new (format : option string) (out : stream)
    (max_terms : Z) (no_update : bool) : result StandardRenderer :=
  match StandardRenderer_init format out max_terms no_update blank with
  | (Ok _, r) => Ok r
  | (Raise e, _) => Raise e
  end.
End Configuration.

(** [f] is a key of one of the two tables. *)
Definition recognized (f : string) : bool :=
  is_key f FIELDS || is_key f TIME_FIELDS.

(** The field names among the tuples, in order. *)
Definition field_names (items : list parsed_item) : list string :=
  omap field_name items.

(** The renderer once the names [fs] have been sorted into its two
    lists. *)
Definition with_fields (fs : list string) (r : StandardRenderer)
  : StandardRenderer :=
  {| _format := _format r;
     _fields := _fields r ++ filter (fun f => is_key f FIELDS = true) fs;
     _time_fields :=
       _time_fields r ++ filter (fun f => is_key f FIELDS = false) fs;
     _max_terms := _max_terms r; _out := _out r;
     _no_update := _no_update r; _has_printed := _has_printed r |}.

(** Sample parsers: the tuples of "{mean} of {count}" and of
    "{mean} {median}", whatever the string. *)
Definition parse_mean_count (_ : string) : list parsed_item * option exn :=
  ([mkItem "" (Some "mean") (Some "") None;
    mkItem " of " (Some "count") (Some "") None], None).

Definition parse_mean_median (_ : string) : list parsed_item * option exn :=
  ([mkItem "" (Some "mean") (Some "") None;
    mkItem " " (Some "median") (Some "") None], None).

End Renderers.

(** ** Calls made by a client, and what they leave behind *)

(** One call into [timer.py], with the call site for those that inspect
    the stack. *)
Inductive call : Type :=
| CallTick (name : option string) (collection : option addr)
           (tick_time_ns : option Z) (site : FrameInfo)
| CallClock (name : option string) (collection : option addr)
            (tick_time_ns : option Z) (tick_frame_info : option FrameInfo)
            (site : FrameInfo)
| CallClockTick (self : addr)
| CallClockTock (self : addr) (name : option string) (site : FrameInfo)
| CallClockCollection (period : option Q)
| CallCollectionUpdate (self : addr)
| CallCollectionPrint (self : addr).

(** The world after a call, whether it returned or raised. *)
Definition run_call (c : call) (w : World) : World :=
  match c with
  | CallTick name coll t site => snd (tick name coll t site w)
  | CallClock name coll t fi site => snd (Clock_init name coll t fi site w)
  | CallClockTick self => snd (Clock_tick self w)
  | CallClockTock self name site => snd (Clock_tock self name site w)
  | CallClockCollection period => snd (ClockCollection_init period w)
  | CallCollectionUpdate self => snd (ClockCollection_update self w)
  | CallCollectionPrint self => snd (ClockCollection_print self w)
  end.

Definition run_calls (cs : list call) (w : World) : World :=
  fold_left (fun w c => run_call c w) cs w.


(** [collection.clocks.get(uid)] for the collection at [coll]. *)
Definition lookup_clock (w : World) (coll : addr) (uid : string) : option addr :=
  match collections w !! coll with
  | Some c => Dict.get uid (clocks c)
  | None => None
  end.

(** [clock.aggregate_times.get(label)] for the clock at [self]. *)
Definition lookup_times (w : World) (self : addr) (label : string)
  : option AggregateTimes :=
  match clock_heap w !! self with
  | Some c => Dict.get label (aggregate_times c)
  | None => None
  end.

(** [collection._last_refresh_time_s] for the collection at [coll]. *)
Definition refresh_time (w : World) (coll : addr) : option Q :=
  match collections w !! coll with
  | Some c => _last_refresh_time_s c
  | None => None
  end.

(** Every clock registered in [c] is in the store. *)
Definition clocks_in_store (w : World) (c : ClockCollection) : bool :=
  forallb (fun a => Nat.ltb a (length (clock_heap w))) (Dict.values (clocks c)).

(** What [print] writes after the header, for the registered addresses. *)
Definition lines_of (heap : list Clock) (addrs : list addr) : list line :=
  flat_map (fun a => match heap !! a with
                     | Some clock => map (clock_line clock)
                                         (Dict.items (aggregate_times clock))
                     | None => []
                     end) addrs.

(** The reading of the clock that the next call of [time.perf_counter]
    returns, in seconds. *)
Definition next_reading (w : World) : Q :=
  seconds (perf_counter_source w (clock_reads w)).

(** The collection [c] once [t] is recorded as its refresh time. *)
Definition with_refresh_time (t : Q) (c : ClockCollection) : ClockCollection :=
  {| clocks := clocks c; _last_refresh_time_s := Some t; _period := _period c |}.

(** The world a refresh leaves when [print] has brought the output to [o]:
    one more reading consumed, stored as the refresh time of [self]. *)
Definition refreshed (self : addr) (c : ClockCollection) (o : list line)
    (w : World) : World :=
  set_collections
    (<[self := with_refresh_time (next_reading w) c]> (collections w))
    (set_clock_reads (S (clock_reads w)) (set_stdout o w)).

(** The world once the clock [c] at [self] holds [r] under [label]. *)
Definition with_times (self : addr) (c : Clock) (label : string)
    (r : AggregateTimes) (w : World) : World :=
  set_clock_heap
    (<[self := set_aggregate_times (Dict.set label r (aggregate_times c)) c]>
       (clock_heap w)) w.

(** The reading that the next call of [time.perf_counter_ns] returns. *)
Definition next_reading_ns (w : World) : Z :=
  perf_counter_source w (clock_reads w).

(** The world once that reading is consumed. *)
Definition after_reading (w : World) : World :=
  set_clock_reads (S (clock_reads w)) w.

(** Sample worlds: the module just imported, with a clock that advances by
    one second, or by three seconds, per reading. *)
Definition every_second (n : nat) : Z := Z.of_nat n * 1000000000.
Definition every_three_seconds (n : nat) : Z := Z.of_nat n * 3000000000.

Definition fresh_world : World := import_timer [] every_second.
Definition slow_world : World := import_timer [] every_three_seconds.
Definition overridden_world : World :=
  import_timer [("TICKTOCK_DEFAULT_PERIOD", "0.5")] every_second.

(** A clock that reads 1000 ns, 1100 ns, 1200 ns, ... *)
Definition nanoseconds (n : nat) : Z := 1000 + 100 * Z.of_nat n.

(** A call site in client code. *)
Definition main_py_10 : FrameInfo := {| filename := "main.py"; lineno := 10 |}.
Definition main_py_12 : FrameInfo := {| filename := "main.py"; lineno := 12 |}.

(** A world where [tick()] at main.py:10 has just created a clock. *)
Definition ticked_world : World :=
  run_calls [CallTick None None None main_py_10] (import_timer [] nanoseconds).

(** The same after [clock.tock("a")] and a second [clock.tick()]: the tick
    was read at 1000, the tock at 1100, the refresh at 1200 and the second
    tick at 1300. *)
Definition timed_world : World :=
  run_calls [CallClockTock 0%nat (Some "a") main_py_12; CallClockTick 0%nat]
            ticked_world.

Definition timed_clock : Clock :=
  {| collection := _INTIME_CLOCKS; name := "clock_0";
     _tick_frame_info := main_py_10; _unique_id := "main.py:10";
     aggregate_times := [("a", first_sample 100)];
     _tick_time_ns := Some 1300 |}.



(** The true extrema of a non-empty run of samples. *)
Definition minimum (x : Z) (xs : list Z) : Z := fold_left Z.min xs x.
Definition maximum (x : Z) (xs : list Z) : Z := fold_left Z.max xs x.

(** ** Further definitions: counting, and StandardRenderer.render *)

(** The number of records held by the clocks at [addrs]. *)
Definition records_of (heap : list Clock) (addrs : list addr) : nat :=
  list_sum (map (fun a => match heap !! a with
                          | Some clock => Dict.len (aggregate_times clock)
                          | None => 0%nat
                          end) addrs).

Module Console.
Import Renderers.




(** One call of [self._out.write]. *)
Record written : Type := mkWritten {
  to : stream;
  text : string
}.


Section Render.
(** The clocks handed to the renderer, and [render_times], the lines of
    one clock: it formats with [str.format] and
    [ticktock.utils.format_ns_interval], which are not part of the sources
    at hand. *)
Variable clock : Type.
Variable render_times : StandardRenderer -> clock -> list string.

(** Whether [import tqdm] succeeded. *)
Variable has_tqdm : bool.


End Render.

End Console.

(** * Properties *)

(** ** The monad *)

Lemma bind_ok {S A B} (m : M S A) (k : A -> M S B) s a s' :
  m s = (Ok a, s') -> bind m k s = k a s'.
Proof. intros H. unfold bind. now rewrite H. Qed.

Lemma bind_raise {S A B} (m : M S A) (k : A -> M S B) s e s' :
  m s = (Raise e, s') -> bind m k s = (Raise e, s').
Proof. intros H. unfold bind. now rewrite H. Qed.


(** ** AggregateTimes.update *)

Section AggregateTimesFacts.

Lemma or_zero_eq (x : Q) : (or_zero x == x)%Q.
Proof.
  unfold or_zero. destruct (Qeq_bool x 0) eqn:E.
  - apply Qeq_bool_eq in E. now symmetry.
  - reflexivity.
Qed.

(** An update returns as soon as the incremented count is not zero. *)
Lemma update_returns t r :
  n_periods r + 1 <> 0 -> fst (update t r) = Ok tt.
Proof.
  intros H. unfold update. destruct (Z.eqb_spec (n_periods r + 1) 0); [lia|].
  reflexivity.
Qed.

Lemma update_fields t r :
  n_periods r + 1 <> 0 ->
  let r' := snd (update t r) in
  last_dt_ns r' = t - last_time_ns r
  /\ n_periods r' = n_periods r + 1
  /\ max_time_ns r' = max_or_neg_inf t (max_time_ns r)
  /\ min_time_ns r' = min_or_inf t (min_time_ns r)
  /\ last_time_ns r' = t
  /\ (avg_time_ns r' ==
      (avg_time_ns r * inject_Z (n_periods r' - 1) + inject_Z (last_dt_ns r'))
      / inject_Z (n_periods r'))%Q.
Proof.
  intros H. unfold update.
  destruct (Z.eqb_spec (n_periods r + 1) 0); [lia|]. simpl.
  repeat split; try reflexivity.
  now rewrite or_zero_eq.
Qed.

(** The step of [update_all]. *)
Lemma update_all_cons t ts r :
  n_periods r + 1 <> 0 ->
  update_all (t :: ts) r = update_all ts (snd (update t r)).
Proof.
  intros H. unfold update_all. simpl.
  pose proof (update_returns t r H) as Hok.
  destruct (update t r) as [res r'] eqn:E. simpl in *. subst res.
  now rewrite (bind_ok _ _ _ _ _ E).
Qed.




End AggregateTimesFacts.


Section Extrema.



End Extrema.


(** C3, on the code: once a sample of 0 is the minimum, the next update
    forgets it. Seeded with 0 and updated with 5, the record reports a
    minimum of 5, while the count and the maximum are right. *)
Theorem zero_minimum_is_forgotten :
  let out := update_all [5] (first_sample 0) in
  fst out = Ok tt
  /\ n_periods (snd out) = 2
  /\ max_time_ns (snd out) = maximum 0 [5]
  /\ min_time_ns (snd out) = 5
  /\ minimum 0 [5] = 0.
Proof. cbv zeta. repeat split. Qed.

(** ** The store *)

Lemma deref_clock_ok a w c :
  clock_heap w !! a = Some c -> deref_clock a w = (Ok c, w).
Proof. intros H. unfold deref_clock. now rewrite H. Qed.

Lemma deref_clock_dangling a w :
  clock_heap w !! a = None -> deref_clock a w = (Raise DanglingReference, w).
Proof. intros H. unfold deref_clock. now rewrite H. Qed.

Lemma deref_collection_ok a w c :
  collections w !! a = Some c -> deref_collection a w = (Ok c, w).
Proof. intros H. unfold deref_collection. now rewrite H. Qed.

Lemma deref_collection_dangling a w :
  collections w !! a = None ->
  deref_collection a w = (Raise DanglingReference, w).
Proof. intros H. unfold deref_collection. now rewrite H. Qed.

(** ** What [print] writes, and what it leaves alone *)

Section Printing.

Lemma print_lines_spec {A} (f : A -> line) (l : list A) : forall w,
  for_each l (fun x => print_line (f x)) w
  = (Ok tt, set_stdout (stdout w ++ map f l) w).
Proof.
  induction l as [|x l IH]; intros w; simpl.
  - unfold ret. rewrite app_nil_r. now destruct w.
  - unfold bind, print_line, modify. rewrite IH. simpl.
    rewrite <- app_assoc. reflexivity.
Qed.

(** The loop over the registered clocks, in a world where only the
    output has changed since [w]. *)
Lemma print_clocks_loop (addrs : list addr) : forall w,
  exists res o,
    for_each addrs (fun a =>
      let* clock := deref_clock a in
      for_each (Dict.items (aggregate_times clock)) (fun entry =>
        print_line (clock_line clock entry))) w
    = (res, set_stdout o w)
    /\ (forallb (fun a => Nat.ltb a (length (clock_heap w))) addrs = true ->
        res = Ok tt /\ o = stdout w ++ lines_of (clock_heap w) addrs).
Proof.
  induction addrs as [|a addrs IH]; intros w; cbn [for_each].
  - exists (Ok tt), (stdout w). split.
    + unfold ret. now destruct w.
    + intros _. simpl. now rewrite app_nil_r.
  - unfold bind at 1.
    destruct (clock_heap w !! a) as [clock|] eqn:Ha.
    + rewrite (bind_ok _ _ _ _ _ (deref_clock_ok _ _ _ Ha)).
      rewrite print_lines_spec.
      destruct (IH (set_stdout
                      (stdout w ++ map (clock_line clock)
                                       (Dict.items (aggregate_times clock))) w))
        as (res & o & Hrun & Hok).
      exists res, o. split.
      * rewrite Hrun. reflexivity.
      * intros Hall. simpl in Hall. apply andb_prop in Hall as [_ Hall].
        destruct (Hok Hall) as [-> ->]. simpl. rewrite Ha.
        split; [reflexivity|]. now rewrite app_assoc.
    + rewrite (bind_raise _ _ _ _ _ (deref_clock_dangling _ _ Ha)).
      exists (Raise DanglingReference), (stdout w). split.
      * now destruct w.
      * intros Hall. simpl in Hall. apply andb_prop in Hall as [Hlt _].
        apply Nat.ltb_lt in Hlt. apply lookup_ge_None in Ha. lia.
Qed.

(** [print] changes the output only; with every registered clock in the
    store it returns, having written the header and the lines. *)
Lemma ClockCollection_print_spec (self : addr) (w : World) :
  exists res o,
    ClockCollection_print self w = (res, set_stdout o w)
    /\ (forall c, collections w !! self = Some c ->
        clocks_in_store w c = true ->
        res = Ok tt
        /\ o = stdout w ++ ClocksHeader
                 :: lines_of (clock_heap w) (Dict.values (clocks c))).
Proof.
  unfold ClockCollection_print.
  destruct (collections w !! self) as [c|] eqn:Hc.
  - rewrite (bind_ok _ _ _ _ _ (deref_collection_ok _ _ _ Hc)).
    rewrite (bind_ok _ _ _ tt (set_stdout (stdout w ++ [ClocksHeader]) w))
      by reflexivity.
    destruct (print_clocks_loop (Dict.values (clocks c))
                (set_stdout (stdout w ++ [ClocksHeader]) w))
      as (res & o & Hrun & Hok).
    exists res, o. split.
    + rewrite Hrun. reflexivity.
    + intros c' Hc' Hall. injection Hc' as <-.
      destruct (Hok Hall) as [-> ->]. simpl.
      split; [reflexivity|]. rewrite <- app_assoc. reflexivity.
  - rewrite (bind_raise _ _ _ _ _ (deref_collection_dangling _ _ Hc)).
    exists (Raise DanglingReference), (stdout w). split.
    + now destruct w.
    + intros c Hc'. discriminate.
Qed.

End Printing.

(** ** ClockCollection.update, case by case *)

Section RefreshGate.

Lemma perf_counter_run w :
  perf_counter w = (Ok (next_reading w), set_clock_reads (S (clock_reads w)) w).
Proof. reflexivity. Qed.

(** The body of the [if] of [update]: print, read the clock, store. *)
Lemma refresh_branch self w c :
  collections w !! self = Some c ->
  exists res o,
    ClockCollection_print self w = (res, set_stdout o w)
    /\ (ClockCollection_print self ;;
        let* now := perf_counter in
        let* c := deref_collection self in
        store_collection self
          {| clocks := clocks c;
             _last_refresh_time_s := Some now;
             _period := _period c |}) w
       = match res with
         | Ok _ => (Ok tt, refreshed self c o w)
         | Raise e => (Raise e, set_stdout o w)
         end.
Proof.
  intros Hc.
  destruct (ClockCollection_print_spec self w) as (res & o & Hprint & _).
  exists res, o. split; [exact Hprint|].
  destruct res as [[]|e].
  - rewrite (bind_ok _ _ _ _ _ Hprint).
    rewrite (bind_ok _ _ _ _ _ (perf_counter_run _)).
    rewrite (bind_ok _ _ _ c _) by (apply deref_collection_ok; exact Hc).
    reflexivity.
  - now rewrite (bind_raise _ _ _ _ _ Hprint).
Qed.

(** Every way [update] can go. *)
Lemma ClockCollection_update_cases self w :
  match collections w !! self with
  | None => ClockCollection_update self w = (Raise DanglingReference, w)
  | Some c =>
      let w1 := set_clock_reads (S (clock_reads w)) w in
      exists res o,
        match _last_refresh_time_s c with
        | None =>
            ClockCollection_print self w = (res, set_stdout o w)
            /\ ClockCollection_update self w
               = match res with
                 | Ok _ => (Ok tt, refreshed self c o w)
                 | Raise e => (Raise e, set_stdout o w)
                 end
        | Some last =>
            match _period c with
            | PeriodStr _ =>
                ClockCollection_update self w = (Raise TypeError, w1)
            | PeriodFloat p =>
                if Qle_bool (next_reading w - last) p then
                  ClockCollection_update self w = (Ok tt, w1)
                else
                  ClockCollection_print self w1 = (res, set_stdout o w1)
                  /\ ClockCollection_update self w
                     = match res with
                       | Ok _ => (Ok tt, refreshed self c o w1)
                       | Raise e => (Raise e, set_stdout o w1)
                       end
            end
        end
  end.
Proof.
  destruct (collections w !! self) as [c|] eqn:Hc.
  - cbv zeta. unfold ClockCollection_update.
    rewrite (bind_ok _ _ _ _ _ (deref_collection_ok _ _ _ Hc)).
    destruct (_last_refresh_time_s c) as [last|] eqn:Hlast.
    + destruct (_period c) as [p|s] eqn:Hp.
      * destruct (Qle_bool (next_reading w - last) p) eqn:Hle.
        -- exists (Ok tt), []. unfold bind at 1. unfold bind at 1.
           rewrite perf_counter_run. simpl. rewrite Hle. reflexivity.
        -- destruct (refresh_branch self (set_clock_reads (S (clock_reads w)) w) c Hc)
             as (res & o & Hprint & Hrun).
           exists res, o. split; [exact Hprint|].
           rewrite <- Hrun. unfold bind at 1. unfold bind at 1.
           rewrite perf_counter_run. simpl. rewrite Hle. reflexivity.
      * exists (Ok tt), []. unfold bind at 1. unfold bind at 1.
        rewrite perf_counter_run. reflexivity.
    + destruct (refresh_branch self w c Hc) as (res & o & Hprint & Hrun).
      exists res, o. split; [exact Hprint|].
      rewrite <- Hrun. reflexivity.
  - unfold ClockCollection_update.
    now rewrite (bind_raise _ _ _ _ _ (deref_collection_dangling _ _ Hc)).
Qed.

End RefreshGate.

Section RefreshGateObserved.

Lemma print_returns self w c res o :
  collections w !! self = Some c ->
  clocks_in_store w c = true ->
  ClockCollection_print self w = (res, set_stdout o w) ->
  res = Ok tt
  /\ o = stdout w ++ ClocksHeader
           :: lines_of (clock_heap w) (Dict.values (clocks c)).
Proof.
  intros Hc Hstore Hrun.
  destruct (ClockCollection_print_spec self w) as (res' & o' & Hrun' & Hok).
  destruct (Hok c Hc Hstore) as [-> ->].
  rewrite Hrun in Hrun'. injection Hrun' as -> ->.
  split; reflexivity.
Qed.

Lemma refreshed_lookup self c o w :
  collections w !! self = Some c ->
  collections (refreshed self c o w) !! self
  = Some (with_refresh_time (next_reading w) c).
Proof.
  intros Hc. unfold refreshed. simpl.
  apply list_lookup_insert_eq. eapply lookup_lt_Some; exact Hc.
Qed.

(** One call of the gate on a collection whose period is a number and
    whose clocks are all in the store. *)
Lemma gate_step self w c p :
  collections w !! self = Some c ->
  _period c = PeriodFloat p ->
  clocks_in_store w c = true ->
  let w' := snd (ClockCollection_update self w) in
  let written :=
    ClocksHeader :: lines_of (clock_heap w) (Dict.values (clocks c)) in
  fst (ClockCollection_update self w) = Ok tt
  /\ clock_heap w' = clock_heap w
  /\ perf_counter_source w' = perf_counter_source w
  /\ match _last_refresh_time_s c with
     | None =>
         stdout w' = stdout w ++ written
         /\ clock_reads w' = S (clock_reads w)
         /\ collections w' !! self
            = Some (with_refresh_time (next_reading w) c)
     | Some last =>
         if Qle_bool (next_reading w - last) p then
           w' = set_clock_reads (S (clock_reads w)) w
         else
           stdout w' = stdout w ++ written
           /\ clock_reads w' = S (S (clock_reads w))
           /\ collections w' !! self
              = Some (with_refresh_time
                        (seconds (perf_counter_source w (S (clock_reads w)))) c)
     end.
Proof.
  intros Hc Hp Hstore. cbv zeta.
  pose proof (ClockCollection_update_cases self w) as Hcases.
  rewrite Hc in Hcases. cbv zeta in Hcases.
  destruct Hcases as (res & o & Hcases).
  destruct (_last_refresh_time_s c) as [last|].
  - rewrite Hp in Hcases.
    destruct (Qle_bool (next_reading w - last) p).
    + rewrite Hcases. simpl. auto.
    + destruct Hcases as [Hprint Hrun].
      destruct (print_returns self (set_clock_reads (S (clock_reads w)) w)
                              c res o Hc Hstore Hprint) as [-> ->].
      rewrite Hrun. simpl fst. simpl snd.
      repeat split.
      exact (refreshed_lookup self c _
               (set_clock_reads (S (clock_reads w)) w) Hc).
  - destruct Hcases as [Hprint Hrun].
    destruct (print_returns self w c res o Hc Hstore Hprint) as [-> ->].
    rewrite Hrun. simpl fst. simpl snd.
    repeat split.
    exact (refreshed_lookup self c _ w Hc).
Qed.

Lemma app_cons_neq {A} (l : list A) x l' : l ++ x :: l' <> l.
Proof.
  intros H. apply (f_equal length) in H.
  rewrite length_app in H. simpl in H. lia.
Qed.

End RefreshGateObserved.

Section RefreshGateClaims.

Lemma refresh_time_lookup w self c :
  collections w !! self = Some c ->
  refresh_time w self = _last_refresh_time_s c.
Proof. intros H. unfold refresh_time. now rewrite H. Qed.

(** The gate when a refresh time is recorded. *)
Lemma gate_with_refresh_time self w c p last :
  collections w !! self = Some c ->
  _period c = PeriodFloat p ->
  clocks_in_store w c = true ->
  _last_refresh_time_s c = Some last ->
  let w' := snd (ClockCollection_update self w) in
  fst (ClockCollection_update self w) = Ok tt
  /\ ((next_reading w - last <= p)%Q ->
      stdout w' = stdout w /\ refresh_time w' self = Some last)
  /\ ((p < next_reading w - last)%Q ->
      stdout w' = stdout w ++ ClocksHeader
                    :: lines_of (clock_heap w) (Dict.values (clocks c))
      /\ refresh_time w' self
         = Some (seconds (perf_counter_source w (S (clock_reads w))))).
Proof.
  intros Hc Hp Hstore Hlast.
  destruct (gate_step self w c p Hc Hp Hstore) as (Hok & _ & _ & Hgate).
  cbv zeta in *. rewrite Hlast in Hgate.
  split; [exact Hok|].
  destruct (Qle_bool (next_reading w - last) p) eqn:Hle.
  - apply Qle_bool_iff in Hle. rewrite Hgate. split.
    + intros _. split; [reflexivity|].
      rewrite (refresh_time_lookup _ _ c) by exact Hc. exact Hlast.
    + intros Hlt. exfalso. exact (Qlt_not_le _ _ Hlt Hle).
  - destruct Hgate as (Hout & _ & Hcoll). split.
    + intros Hle'. apply Qle_bool_iff in Hle'. congruence.
    + intros _. split; [exact Hout|].
      rewrite (refresh_time_lookup _ _ _ Hcoll). reflexivity.
Qed.

End RefreshGateClaims.

(** C6. On a collection whose period is a number [p] and whose clocks are
    all in the store, [update] returns, and it renders exactly when it is
    due, that is when no refresh time is recorded or the reading of the
    clock exceeds the recorded time by more than [p]: when due, the header
    and the lines are appended to the output and the refresh time becomes
    the reading taken after printing; when not due, the output and the
    refresh time stay as they were. After a render, a second call within
    the period writes nothing, and a second call after the period has
    elapsed renders again. *)
Theorem refresh_gate_renders_iff_due self w c p :
  collections w !! self = Some c ->
  _period c = PeriodFloat p ->
  clocks_in_store w c = true ->
  let w' := snd (ClockCollection_update self w) in
  let due :=
    match _last_refresh_time_s c with
    | None => True
    | Some last => (p < next_reading w - last)%Q
    end in
  let written :=
    ClocksHeader :: lines_of (clock_heap w) (Dict.values (clocks c)) in
  fst (ClockCollection_update self w) = Ok tt
  /\ (due ->
      stdout w' = stdout w ++ written
      /\ refresh_time w' self
         = Some (seconds (perf_counter_source w (Nat.pred (clock_reads w')))))
  /\ (~ due ->
      stdout w' = stdout w /\ refresh_time w' self = refresh_time w self)
  /\ (stdout w' <> stdout w <-> due)
  /\ (due ->
      exists t, refresh_time w' self = Some t
      /\ let w'' := snd (ClockCollection_update self w') in
         fst (ClockCollection_update self w') = Ok tt
         /\ ((next_reading w' - t <= p)%Q ->
             stdout w'' = stdout w' /\ refresh_time w'' self = Some t)
         /\ ((p < next_reading w' - t)%Q ->
             stdout w'' = stdout w' ++ written
             /\ refresh_time w'' self
                = Some (seconds (perf_counter_source w (S (clock_reads w')))))).
Proof.
  intros Hc Hp Hstore. cbv zeta.
  destruct (gate_step self w c p Hc Hp Hstore) as (Hok & Hheap & Hsrc & Hgate).
  cbv zeta in *.
  (* what a render leaves, in both cases where one happens *)
  assert (Hafter : forall k,
    stdout (snd (ClockCollection_update self w))
    = stdout w ++ ClocksHeader
        :: lines_of (clock_heap w) (Dict.values (clocks c)) ->
    clock_reads (snd (ClockCollection_update self w)) = S k ->
    collections (snd (ClockCollection_update self w)) !! self
    = Some (with_refresh_time (seconds (perf_counter_source w k)) c) ->
    exists t,
      refresh_time (snd (ClockCollection_update self w)) self = Some t
      /\ t = seconds (perf_counter_source w k)
      /\ fst (ClockCollection_update self (snd (ClockCollection_update self w)))
         = Ok tt
      /\ ((next_reading (snd (ClockCollection_update self w)) - t <= p)%Q ->
          stdout (snd (ClockCollection_update self
                         (snd (ClockCollection_update self w))))
          = stdout (snd (ClockCollection_update self w))
          /\ refresh_time (snd (ClockCollection_update self
                                  (snd (ClockCollection_update self w)))) self
             = Some t)
      /\ ((p < next_reading (snd (ClockCollection_update self w)) - t)%Q ->
          stdout (snd (ClockCollection_update self
                         (snd (ClockCollection_update self w))))
          = stdout (snd (ClockCollection_update self w)) ++ ClocksHeader
              :: lines_of (clock_heap w) (Dict.values (clocks c))
          /\ refresh_time (snd (ClockCollection_update self
                                  (snd (ClockCollection_update self w)))) self
             = Some (seconds (perf_counter_source w
                       (S (clock_reads (snd (ClockCollection_update self w)))))))).
  { intros k Hout Hreads Hcoll.
    set (w' := snd (ClockCollection_update self w)) in *.
    exists (seconds (perf_counter_source w k)).
    split; [now rewrite (refresh_time_lookup _ _ _ Hcoll)|].
    split; [reflexivity|].
    assert (Hstore' : clocks_in_store w'
                        (with_refresh_time (seconds (perf_counter_source w k)) c)
                      = true).
    { unfold clocks_in_store in *. rewrite Hheap. exact Hstore. }
    destruct (gate_with_refresh_time self w'
                (with_refresh_time (seconds (perf_counter_source w k)) c) p
                (seconds (perf_counter_source w k)) Hcoll Hp Hstore' eq_refl)
      as (Hok2 & Hin & Hout2).
    cbv zeta in *. rewrite Hheap, Hsrc in Hout2. simpl clocks in Hout2.
    repeat split; try assumption; try (apply Hin; assumption);
      apply Hout2; assumption. }
  split; [exact Hok|].
  destruct (_last_refresh_time_s c) as [last|] eqn:Hlast.
  - destruct (Qle_bool (next_reading w - last) p) eqn:Hle.
    + assert (Hnot : ~ (p < next_reading w - last)%Q).
      { apply Qle_bool_iff in Hle. intros Hlt. exact (Qlt_not_le _ _ Hlt Hle). }
      rewrite Hgate. simpl stdout.
      split; [intros Hdue; contradiction|].
      split.
      { intros _. split; [reflexivity|].
        unfold refresh_time. simpl. reflexivity. }
      split; [split; [congruence | intros Hdue; contradiction]|].
      intros Hdue; contradiction.
    + assert (Hdue : (p < next_reading w - last)%Q).
      { apply Qnot_le_lt. intros Hle'. apply Qle_bool_iff in Hle'. congruence. }
      destruct Hgate as (Hout & Hreads & Hcoll).
      destruct (Hafter _ Hout Hreads Hcoll) as (t & Ht & -> & Hsecond).
      split.
      { intros _. split; [exact Hout|]. rewrite Ht, Hreads. reflexivity. }
      split; [intros Hn; contradiction|].
      split.
      { split; [intros _; exact Hdue|].
        intros _. rewrite Hout. apply app_cons_neq. }
      intros _. eexists. split; [exact Ht|]. exact Hsecond.
  - destruct Hgate as (Hout & Hreads & Hcoll).
    destruct (Hafter _ Hout Hreads Hcoll) as (t & Ht & -> & Hsecond).
    split.
    { intros _. split; [exact Hout|]. rewrite Ht, Hreads. reflexivity. }
    split; [intros Hn; exfalso; apply Hn; exact I|].
    split.
    { split; [intros _; exact I|].
      intros _. rewrite Hout. apply app_cons_neq. }
    intros _. eexists. split; [exact Ht|]. exact Hsecond.
Qed.

Lemma refresh_gate_witness :
  collections slow_world !! _INTIME_CLOCKS
  = Some (ClockCollection_fields None [])
  /\ fst (ClockCollection_update _INTIME_CLOCKS slow_world) = Ok tt.
Proof.
  split; [reflexivity|].
  exact (proj1 (refresh_gate_renders_iff_due _INTIME_CLOCKS slow_world
                  (ClockCollection_fields None []) (inject_Z 2)
                  eq_refl eq_refl eq_refl)).
Defined.

(** C7, on the code. A period of 0 is falsy, so the constructor takes the
    value of the environment or the default 2.0 instead: a collection built
    with period 0 on a clock that advances by one second per reading
    renders once and then not again, where a period of 0 would be due.
    And when the environment supplies the period, [_period] is the string
    itself, and the comparison of the gate raises at the second call. *)
Theorem zero_period_is_replaced :
  (forall env,
     _period (ClockCollection_fields (Some 0%Q) env) = environ_period env)
  /\ _period (ClockCollection_fields (Some 0%Q) []) = PeriodFloat (inject_Z 2)
  /\ (let made := ClockCollection_init (Some 0%Q) fresh_world in
      let w1 := snd (ClockCollection_update 1%nat (snd made)) in
      let w2 := snd (ClockCollection_update 1%nat w1) in
      fst made = Ok 1%nat
      /\ stdout w1 = [ClocksHeader]
      /\ refresh_time w1 1%nat = Some (seconds 0)
      /\ next_reading w1 = seconds 1000000000
      /\ stdout w2 = [ClocksHeader])
  /\ (let made := ClockCollection_init None overridden_world in
      let w1 := snd (ClockCollection_update 1%nat (snd made)) in
      fst made = Ok 1%nat
      /\ (_period <$> collections w1 !! 1%nat) = Some (PeriodStr "0.5")
      /\ fst (ClockCollection_update 1%nat w1) = Raise TypeError).
Proof.
  split; [reflexivity|]. split; [reflexivity|].
  split; cbv zeta; repeat split; vm_compute; reflexivity.
Qed.

Lemma nonzero_period_is_kept (p : Q) (env : Dict.t string) :
  ~ (p == 0)%Q -> _period (ClockCollection_fields (Some p) env) = PeriodFloat p.
Proof.
  intros Hp. simpl. unfold period_or_environ.
  destruct (Qeq_bool p 0) eqn:E; [|reflexivity].
  apply Qeq_bool_eq in E. contradiction.
Qed.

(** ** What the calls leave alone *)

Section Frames.

Lemma lookup_clock_store_same_clocks w self c c' b uid :
  collections w !! self = Some c ->
  clocks c' = clocks c ->
  lookup_clock (set_collections (<[self := c']> (collections w)) w) b uid
  = lookup_clock w b uid.
Proof.
  intros Hc Hclocks. unfold lookup_clock, set_collections. cbn [collections].
  destruct (decide (self = b)) as [Heq|Hne]; [subst b|].
  - rewrite list_lookup_insert_eq by (eapply lookup_lt_Some; exact Hc).
    rewrite Hc, Hclocks. reflexivity.
  - rewrite list_lookup_insert_ne by exact Hne. reflexivity.
Qed.

(** [ClockCollection.update] touches neither the clocks nor what the
    collections register. *)
Lemma ClockCollection_update_frame self w :
  let w' := snd (ClockCollection_update self w) in
  clock_heap w' = clock_heap w
  /\ perf_counter_source w' = perf_counter_source w
  /\ (forall b uid, lookup_clock w' b uid = lookup_clock w b uid).
Proof.
  cbv zeta.
  pose proof (ClockCollection_update_cases self w) as Hcases.
  destruct (collections w !! self) as [c|] eqn:Hc.
  - cbv zeta in Hcases. destruct Hcases as (res & o & Hcases).
    assert (Hrefreshed : forall w0 o0,
      collections w0 = collections w ->
      forall b uid,
        lookup_clock (refreshed self c o0 w0) b uid = lookup_clock w b uid).
    { intros w0 o0 Hsame b uid. unfold refreshed.
      rewrite <- (lookup_clock_store_same_clocks w self c
                    (with_refresh_time (next_reading w0) c) b uid Hc eq_refl).
      unfold lookup_clock. simpl. rewrite Hsame. reflexivity. }
    destruct (_last_refresh_time_s c) as [last|].
    + destruct (_period c) as [p|s].
      * destruct (Qle_bool (next_reading w - last) p).
        -- rewrite Hcases. simpl. auto.
        -- destruct Hcases as [_ ->]. destruct res as [[]|e]; simpl.
           ++ repeat split. intros b uid. now apply Hrefreshed.
           ++ auto.
      * rewrite Hcases. simpl. auto.
    + destruct Hcases as [_ ->]. destruct res as [[]|e]; simpl.
      * repeat split. intros b uid. now apply Hrefreshed.
      * auto.
  - rewrite Hcases. simpl. auto.
Qed.

Lemma dict_get_set_eq {V} (k : string) (v : V) (d : Dict.t V) :
  Dict.get k (Dict.set k v d) = Some v.
Proof.
  induction d as [|[k' v'] d IH]; simpl.
  - now rewrite String.eqb_refl.
  - destruct (String.eqb k k') eqn:E; simpl; rewrite E; [reflexivity|exact IH].
Qed.

Lemma dict_get_set_ne {V} (k k' : string) (v : V) (d : Dict.t V) :
  k <> k' -> Dict.get k' (Dict.set k v d) = Dict.get k' d.
Proof.
  intros Hne. induction d as [|[k0 v0] d IH]; simpl.
  - destruct (String.eqb_spec k' k); [congruence|reflexivity].
  - destruct (String.eqb_spec k k0) as [->|Hk]; simpl.
    + destruct (String.eqb_spec k' k0); [congruence|reflexivity].
    + destruct (String.eqb_spec k' k0); [reflexivity|exact IH].
Qed.

End Frames.

(** ** Clock.tick and Clock.tock, step by step *)

Section ClockSteps.

Lemma Clock_tick_run self w c :
  clock_heap w !! self = Some c ->
  Clock_tick self w
  = (Ok (next_reading_ns w),
     set_clock_heap (<[self := set_tick_time (Some (next_reading_ns w)) c]>
                       (clock_heap w)) (after_reading w)).
Proof.
  intros Hc. unfold Clock_tick.
  rewrite (bind_ok _ _ _ _ _ (deref_clock_ok _ _ _ Hc)). reflexivity.
Qed.

(** Every way [tock] can go, up to the refresh that ends it. *)
Lemma Clock_tock_run self name site w c :
  clock_heap w !! self = Some c ->
  let label := tock_label c name site in
  let now := next_reading_ns w in
  Clock_tock self name site w
  = match Dict.get label (aggregate_times c) with
    | Some r =>
        match fst (update now r) with
        | Ok _ =>
            (ClockCollection_update (collection c) ;; ret now)
              (with_times self c label (snd (update now r)) (after_reading w))
        | Raise e =>
            (Raise e,
             with_times self c label (snd (update now r)) (after_reading w))
        end
    | None =>
        match _tick_time_ns c with
        | Some t =>
            (ClockCollection_update (collection c) ;; ret now)
              (with_times self c label (first_sample (now - t))
                          (after_reading w))
        | None => (Raise TypeError, after_reading w)
        end
    end.
Proof.
  intros Hc. cbv zeta. unfold Clock_tock.
  rewrite (bind_ok _ _ _ _ _ (deref_clock_ok _ _ _ Hc)).
  rewrite (bind_ok _ _ _ (next_reading_ns w) (after_reading w)) by reflexivity.
  destruct (Dict.get (tock_label c name site) (aggregate_times c)) as [r|].
  - destruct (update (next_reading_ns w) r) as [[[]|e] r'] eqn:Hupd;
      reflexivity.
  - destruct (_tick_time_ns c) as [t|]; reflexivity.
Qed.

Lemma lookup_times_with_times self c label r w :
  clock_heap w !! self = Some c ->
  lookup_times (with_times self c label r w) self label = Some r.
Proof.
  intros Hc. unfold lookup_times, with_times, set_clock_heap.
  cbn [clock_heap].
  rewrite list_lookup_insert_eq by (eapply lookup_lt_Some; exact Hc).
  cbn [aggregate_times set_aggregate_times]. apply dict_get_set_eq.
Qed.

(** The refresh that ends [tock] does not touch the clocks. *)
Lemma lookup_times_after_refresh {A} coll (x : A) w self label :
  lookup_times (snd ((ClockCollection_update coll ;; ret x) w)) self label
  = lookup_times w self label.
Proof.
  destruct (ClockCollection_update_frame coll w) as (Hheap & _).
  cbv zeta in Hheap. unfold bind.
  destruct (ClockCollection_update coll w) as [[[]|e] w'];
    simpl in *; unfold lookup_times; simpl; now rewrite Hheap.
Qed.

(** The record under the label after [tock], when the label is known. *)
Lemma tock_known_label self name site w c r :
  clock_heap w !! self = Some c ->
  Dict.get (tock_label c name site) (aggregate_times c) = Some r ->
  lookup_times (snd (Clock_tock self name site w)) self
               (tock_label c name site)
  = Some (snd (update (next_reading_ns w) r)).
Proof.
  intros Hc Hr. rewrite (Clock_tock_run self name site w c Hc).
  cbv zeta. rewrite Hr.
  destruct (fst (update (next_reading_ns w) r)) as [[]|e].
  - rewrite lookup_times_after_refresh.
    now apply lookup_times_with_times.
  - simpl snd. now apply lookup_times_with_times.
Qed.

(** The record under the label after [tock], when the label is new and
    the clock is ticked. *)
Lemma tock_new_label self name site w c t :
  clock_heap w !! self = Some c ->
  Dict.get (tock_label c name site) (aggregate_times c) = None ->
  _tick_time_ns c = Some t ->
  lookup_times (snd (Clock_tock self name site w)) self
               (tock_label c name site)
  = Some (first_sample (next_reading_ns w - t)).
Proof.
  intros Hc Hr Ht. rewrite (Clock_tock_run self name site w c Hc).
  cbv zeta. rewrite Hr, Ht.
  rewrite lookup_times_after_refresh.
  now apply lookup_times_with_times.
Qed.


End ClockSteps.

(** C1, on the code. When the label already has a record, [tock] updates
    that record with the reading of the clock itself: the pending tick time
    does not enter. *)
Theorem tock_known_label_folds_the_reading self name site w c r :
  clock_heap w !! self = Some c ->
  Dict.get (tock_label c name site) (aggregate_times c) = Some r ->
  lookup_times (snd (Clock_tock self name site w)) self (tock_label c name site)
  = Some (snd (update (next_reading_ns w) r)).
Proof. apply tock_known_label. Qed.

Lemma tock_known_label_witness :
  clock_heap timed_world !! 0%nat = Some timed_clock
  /\ next_reading_ns timed_world = 1400
  /\ lookup_times (snd (Clock_tock 0%nat (Some "a") main_py_12 timed_world))
                  0%nat "a"
     = Some (snd (update 1400 (first_sample 100)))
  /\ last_time_ns (snd (update 1400 (first_sample 100))) = 1400
  /\ last_time_ns (snd (update (1400 - 1300) (first_sample 100))) = 100.
Proof.
  split; [vm_compute; reflexivity|].
  split; [vm_compute; reflexivity|].
  split; [|split; reflexivity].
  exact (tock_known_label_folds_the_reading 0%nat (Some "a") main_py_12
           timed_world timed_clock (first_sample 100)
           ltac:(vm_compute; reflexivity) ltac:(vm_compute; reflexivity)).
Defined.





(** C5, on the code. With a name that is not empty, [tick] never assigns
    [tick_frame_info], and reading it for the call of [Clock] raises
    [UnboundLocalError]: no clock is created, registered or returned, and
    the world is as it was. *)
Theorem tick_with_name_raises (a : Ascii.ascii) (s : string)
    (collection : option addr) (tick_time_ns : option Z) (site : FrameInfo)
    (w : World) :
  tick (Some (String a s)) collection tick_time_ns site w
  = (Raise UnboundLocalError, w).
Proof. reflexivity. Qed.

(** ** Construction and the entry point, step by step *)

Section Registration.

Lemma Clock_init_run name coll ttn fi site w c :
  collections w !! collection_or_default coll = Some c ->
  Clock_init name coll ttn fi site w
  = (Ok (length (clock_heap w)),
     set_collections
       (<[collection_or_default coll :=
            register_clock (name_or name (site_key (frame_or fi site)))
                           (length (clock_heap w)) c]> (collections w))
       (set_clock_heap
          (clock_heap w ++
           [{| collection := collection_or_default coll;
               name := name_or name
                         ("clock_" +:+ pretty (Dict.len (clocks c)));
               _tick_frame_info := frame_or fi site;
               _unique_id := name_or name (site_key (frame_or fi site));
               aggregate_times := Dict.empty;
               _tick_time_ns := ttn |}]) w)).
Proof.
  intros Hc. unfold Clock_init.
  rewrite (bind_ok _ _ _ _ _ (deref_collection_ok _ _ _ Hc)). reflexivity.
Qed.


(** The entry point without a name: reuse the clock of the call site,
    or construct one there. *)
Lemma tick_run name coll ttn site w c :
  not_name name = true ->
  collections w !! collection_or_default coll = Some c ->
  tick name coll ttn site w
  = match Dict.get (site_key site) (clocks c) with
    | Some clock => (Clock_tick clock ;; ret clock) w
    | None =>
        (let* clock := Clock_init name (Some (collection_or_default coll))
                                  ttn (Some site) tick_frame in
         Clock_tick clock ;; ret clock) w
    end.
Proof.
  intros Hname Hc. unfold tick. rewrite Hname.
  rewrite (bind_ok _ _ _ (Dict.get (site_key site) (clocks c)) w).
  - destruct (Dict.get (site_key site) (clocks c)); reflexivity.
  - now rewrite (bind_ok _ _ _ _ _ (deref_collection_ok _ _ _ Hc)).
Qed.

Lemma tick_dangling name coll ttn site w :
  not_name name = true ->
  collections w !! collection_or_default coll = None ->
  tick name coll ttn site w = (Raise DanglingReference, w).
Proof.
  intros Hname Hc. unfold tick. rewrite Hname.
  rewrite (bind_raise _ _ _ DanglingReference w); [reflexivity|].
  now rewrite (bind_raise _ _ _ _ _ (deref_collection_dangling _ _ Hc)).
Qed.

Lemma tick_named name coll ttn site w :
  not_name name = false ->
  tick name coll ttn site w = (Raise UnboundLocalError, w).
Proof. intros Hname. unfold tick. rewrite Hname. reflexivity. Qed.

Lemma Clock_tick_dangling self w :
  clock_heap w !! self = None ->
  Clock_tick self w = (Raise DanglingReference, w).
Proof.
  intros Hc. unfold Clock_tick.
  now rewrite (bind_raise _ _ _ _ _ (deref_clock_dangling _ _ Hc)).
Qed.


(** Ticking a clock leaves the registrations and the records alone. *)
Lemma Clock_tick_frame self w :
  let w' := snd (Clock_tick self w) in
  collections w' = collections w
  /\ length (clock_heap w') = length (clock_heap w)
  /\ (forall a label, lookup_times w' a label = lookup_times w a label).
Proof.
  cbv zeta. destruct (clock_heap w !! self) as [c|] eqn:Hc.
  - rewrite (Clock_tick_run self w c Hc). simpl snd.
    split; [reflexivity|]. split.
    + unfold set_clock_heap. cbn [clock_heap]. now rewrite length_insert.
    + intros a label. unfold lookup_times, set_clock_heap. cbn [clock_heap].
      destruct (decide (self = a)) as [Heq|Hne]; [subst a|].
      * rewrite list_lookup_insert_eq by (eapply lookup_lt_Some; exact Hc).
        now rewrite Hc.
      * now rewrite list_lookup_insert_ne by exact Hne.
  - rewrite (Clock_tick_dangling self w Hc). auto.
Qed.

End Registration.

(** ** What a call can do to a registration *)

Section Stability.

Lemma snd_then_ret {A B} (m : M World A) (x : B) w :
  snd ((m ;; ret x) w) = snd (m w).
Proof. unfold bind. destruct (m w) as [[a|e] w']; reflexivity. Qed.








End Stability.

Section Lifetime.




Lemma name_or_site name key :
  not_name name = true -> name_or name key = key.
Proof.
  intros Hname. destruct name as [s|]; [|reflexivity].
  simpl in *. now rewrite Hname.
Qed.

(** What a first resolution leaves: the clock it returns is registered
    under the call site and is in the store. *)
Lemma tick_registers name coll ttn site w a w1 :
  not_name name = true ->
  tick name coll ttn site w = (Ok a, w1) ->
  lookup_clock w1 (collection_or_default coll) (site_key site) = Some a
  /\ (a < length (clock_heap w1))%nat.
Proof.
  intros Hname Hrun.
  destruct (collections w !! collection_or_default coll) as [c|] eqn:Hc;
    [|rewrite (tick_dangling name coll ttn site w Hname Hc) in Hrun;
      discriminate].
  rewrite (tick_run name coll ttn site w c Hname Hc) in Hrun.
  destruct (Dict.get (site_key site) (clocks c)) as [clock|] eqn:Hkey.
  - destruct (clock_heap w !! clock) as [cl|] eqn:Hcl.
    + rewrite (bind_ok _ _ _ _ _ (Clock_tick_run clock w cl Hcl)) in Hrun.
      injection Hrun as <- <-. split.
      * unfold lookup_clock, set_clock_heap, after_reading, set_clock_reads.
        cbn [collections]. now rewrite Hc.
      * unfold set_clock_heap. cbn [clock_heap]. rewrite length_insert.
        eapply lookup_lt_Some; exact Hcl.
    + rewrite (bind_raise _ _ _ _ _ (Clock_tick_dangling clock w Hcl)) in Hrun.
      discriminate.
  - rewrite (bind_ok _ _ _ _ _
               (Clock_init_run name (Some (collection_or_default coll)) ttn
                               (Some site) tick_frame w c Hc)) in Hrun.
    match type of Hrun with
    | (Clock_tick ?n ;; _) ?w' = _ =>
        assert (Hnew : exists cl, clock_heap w' !! n = Some cl)
    end.
    { eexists. unfold set_collections, set_clock_heap. cbn [clock_heap].
      rewrite lookup_app_r by lia. rewrite Nat.sub_diag. reflexivity. }
    destruct Hnew as (cl & Hcl).
    rewrite (bind_ok _ _ _ _ _ (Clock_tick_run _ _ cl Hcl)) in Hrun.
    injection Hrun as <- <-. split.
    + unfold lookup_clock, set_clock_heap, after_reading, set_clock_reads,
        set_collections. cbn [collections collection_or_default].
      rewrite list_lookup_insert_eq by (eapply lookup_lt_Some; exact Hc).
      cbn [clocks register_clock frame_or].
      rewrite (name_or_site name _ Hname). apply dict_get_set_eq.
    + unfold set_clock_heap, set_collections. cbn [clock_heap].
      rewrite length_insert, length_app. simpl. lia.
Qed.


End Lifetime.




(** ** StandardRenderer.set_format *)

Section FormatCheck.
Import Renderers.

Variable parse : string -> list parsed_item * option exn.

Lemma check_item_then (it : parsed_item) (k : M StandardRenderer unit) r :
  (check_item it ;; k) r
  = match field_name it with
    | None => k r
    | Some f =>
        if is_key f FIELDS then k (append_field f r)
        else if is_key f TIME_FIELDS then k (append_time_field f r)
        else (Raise ValueError, r)
    end.
Proof.
  unfold bind, check_item.
  destruct (field_name it) as [f|]; [|reflexivity].
  destruct (is_key f FIELDS); [reflexivity|].
  destruct (is_key f TIME_FIELDS); reflexivity.
Qed.

Lemma with_fields_field f fs r :
  is_key f FIELDS = true ->
  with_fields fs (append_field f r) = with_fields (f :: fs) r.
Proof.
  intros Hf. unfold with_fields, append_field.
  cbn [_format _fields _time_fields _max_terms _out _no_update _has_printed].
  rewrite !filter_cons.
  rewrite decide_True by exact Hf.
  rewrite decide_False by (rewrite Hf; discriminate).
  now rewrite <- app_assoc.
Qed.

Lemma with_fields_time_field f fs r :
  is_key f FIELDS = false ->
  with_fields fs (append_time_field f r) = with_fields (f :: fs) r.
Proof.
  intros Hf. unfold with_fields, append_time_field.
  cbn [_format _fields _time_fields _max_terms _out _no_update _has_printed].
  rewrite !filter_cons.
  rewrite decide_False by (rewrite Hf; discriminate).
  rewrite decide_True by exact Hf.
  now rewrite <- app_assoc.
Qed.

Lemma with_fields_nil r : with_fields [] r = r.
Proof.
  unfold with_fields. rewrite !filter_nil, !app_nil_r. now destruct r.
Qed.

(** The loop of [set_format]: it completes exactly when every field
    name is recognized, and has then sorted the names. *)
Lemma check_items_spec (items : list parsed_item) : forall r,
  fst (for_each items check_item r)
  = (if forallb recognized (field_names items)
     then Ok tt else Raise ValueError)
  /\ (forallb recognized (field_names items) = true ->
      snd (for_each items check_item r)
      = with_fields (field_names items) r).
Proof.
  induction items as [|it items IH]; intros r.
  - simpl. split; [reflexivity|]. intros _. now rewrite with_fields_nil.
  - cbn [for_each]. rewrite check_item_then.
    unfold field_names in *. cbn [omap list_omap].
    destruct (field_name it) as [f|]; [|apply IH].
    cbn [forallb]. unfold recognized at 1 3.
    destruct (is_key f FIELDS) eqn:Hfield.
    + cbn [orb andb]. destruct (IH (append_field f r)) as [Hres Hstate].
      split; [exact Hres|]. intros Hall.
      rewrite (Hstate Hall). now apply with_fields_field.
    + destruct (is_key f TIME_FIELDS) eqn:Htime.
      * cbn [orb andb].
        destruct (IH (append_time_field f r)) as [Hres Hstate].
        split; [exact Hres|]. intros Hall.
        rewrite (Hstate Hall). now apply with_fields_time_field.
      * cbn [orb andb fst]. split; [reflexivity|]. discriminate.
Qed.

(** [set_format] on any renderer. *)
Lemma set_format_spec (format : string) (r0 : StandardRenderer) :
  let template := Dict.get_default format format FORMATS in
  let names := field_names (fst (parse template)) in
  set_format parse format r0
  = if forallb recognized names then
      match snd (parse template) with
      | Some e =>
          (Raise e, with_fields names (reset_format template r0))
      | None =>
          (Ok tt,
           set_has_printed 0 (with_fields names (reset_format template r0)))
      end
    else (Raise ValueError, snd (set_format parse format r0)).
Proof.
  cbv zeta. unfold set_format.
  set (template := Dict.get_default format format FORMATS).
  rewrite (bind_ok _ _ _ tt (reset_format template r0)) by reflexivity.
  destruct (check_items_spec (fst (parse template))
                             (reset_format template r0)) as [Hres Hstate].
  destruct (forallb recognized (field_names (fst (parse template)))).
  - specialize (Hstate eq_refl).
    destruct (for_each (fst (parse template)) check_item
                       (reset_format template r0)) as [res r1] eqn:Hloop.
    simpl in Hres, Hstate. subst res r1.
    rewrite (bind_ok _ _ _ _ _ Hloop).
    destruct (snd (parse template)); reflexivity.
  - destruct (for_each (fst (parse template)) check_item
                       (reset_format template r0)) as [res r1] eqn:Hloop.
    simpl in Hres. subst res.
    now rewrite (bind_raise _ _ _ _ _ Hloop).
Qed.

End FormatCheck.


(** Two concrete configurations on the sample parsers: "{mean} of {count}"
    configures, "{mean} {median}" is rejected. *)
Example known_fields_configure :
  Renderers.StandardRenderer_new Renderers.parse_mean_count (fun _ d => d)
    (Some "{mean} of {count}") Renderers.Stderr 2 false
  = Ok {| Renderers._format := "{mean} of {count}";
          Renderers._fields := ["count"];
          Renderers._time_fields := ["mean"];
          Renderers._max_terms := Some 2;
          Renderers._out := Some Renderers.Stderr;
          Renderers._no_update := false;
          Renderers._has_printed := Some 0 |}.
Proof. reflexivity. Qed.

Example unknown_field_raises :
  Renderers.StandardRenderer_new Renderers.parse_mean_median (fun _ d => d)
    (Some "{mean} {median}") Renderers.Stderr 2 false
  = Raise ValueError.
Proof. reflexivity. Qed.

(** * Further properties of the code *)

(** ** AggregateTimes: what a run of updates keeps *)

Section RunningStatistics.




(** One update moves each extremum to the new sample or leaves it, and
    brackets the new sample. *)
Lemma update_extrema t r :
  let r' := snd (update t r) in
  (min_time_ns r' = t \/ min_time_ns r' = min_time_ns r)
  /\ (max_time_ns r' = t \/ max_time_ns r' = max_time_ns r)
  /\ min_time_ns r' <= t <= max_time_ns r'.
Proof.
  cbv zeta. unfold update.
  destruct (n_periods r + 1 =? 0); simpl;
    unfold min_or_inf, max_or_neg_inf;
    destruct (min_time_ns r =? 0); destruct (max_time_ns r =? 0); lia.
Qed.

Lemma update_all_extrema (es : list Z) : forall r (seen : list Z),
  1 <= n_periods r ->
  In (min_time_ns r) seen -> In (max_time_ns r) seen ->
  min_time_ns r <= last_time_ns r <= max_time_ns r ->
  let r' := snd (update_all es r) in
  In (min_time_ns r') (seen ++ es)
  /\ In (max_time_ns r') (seen ++ es)
  /\ min_time_ns r' <= last_time_ns r' <= max_time_ns r'.
Proof.
  induction es as [|t es IH]; intros r seen Hn Hmin Hmax Hlast; cbv zeta.
  - simpl. rewrite app_nil_r. auto.
  - rewrite update_all_cons by lia.
    destruct (update_extrema t r) as (Hmn & Hmx & Hbr).
    destruct (update_fields t r ltac:(lia)) as (_ & Hn' & _ & _ & Hl & _).
    cbv zeta in *.
    replace (seen ++ t :: es) with ((seen ++ [t]) ++ es)
      by (rewrite <- app_assoc; reflexivity).
    apply IH.
    + lia.
    + apply in_or_app. destruct Hmn as [->| ->]; [right; now left | now left].
    + apply in_or_app. destruct Hmx as [->| ->]; [right; now left | now left].
    + rewrite Hl. exact Hbr.
Qed.

End RunningStatistics.


(** X2. Whatever the samples, the recorded minimum and maximum are always
    samples that were really seen, and they bracket the last sample; so
    the recorded minimum is never below the true one and the recorded
    maximum never above it. *)
Theorem recorded_extrema_are_samples (e0 : Z) (es : list Z) :
  let r := snd (update_all es (first_sample e0)) in
  In (min_time_ns r) (e0 :: es)
  /\ In (max_time_ns r) (e0 :: es)
  /\ min_time_ns r <= last_time_ns r <= max_time_ns r
  /\ minimum e0 es <= min_time_ns r
  /\ max_time_ns r <= maximum e0 es.
Proof.
  cbv zeta.
  destruct (update_all_extrema es (first_sample e0) [e0])
    as (Hmin & Hmax & Hbr); try (simpl; lia); try (now left).
  cbv zeta in *. change ([e0] ++ es) with (e0 :: es) in *.
  assert (Hlow : forall xs x y, In y (x :: xs) -> fold_left Z.min xs x <= y).
  { induction xs as [|z xs IH]; intros x y Hy; simpl.
    - destruct Hy as [->|[]]. lia.
    - destruct Hy as [->|[->|Hy]].
      + transitivity (Z.min y z); [apply IH; now left | lia].
      + transitivity (Z.min x y); [apply IH; now left | lia].
      + apply IH. now right. }
  assert (Hhigh : forall xs x y, In y (x :: xs) -> y <= fold_left Z.max xs x).
  { induction xs as [|z xs IH]; intros x y Hy; simpl.
    - destruct Hy as [->|[]]. lia.
    - destruct Hy as [->|[->|Hy]].
      + transitivity (Z.max y z); [lia | apply IH; now left].
      + transitivity (Z.max x y); [lia | apply IH; now left].
      + apply IH. now right. }
  repeat split; try assumption; try lia.
  - apply Hlow. exact Hmin.
  - apply Hhigh. exact Hmax.
Qed.



(** ** ClockCollection: printing and the first refresh *)

Section CollectionFacts.

Lemma lines_of_length heap addrs :
  length (lines_of heap addrs) = records_of heap addrs.
Proof.
  unfold lines_of, records_of.
  induction addrs as [|a addrs IH]; [reflexivity|].
  cbn [flat_map map list_sum]. rewrite length_app, IH. f_equal.
  destruct (heap !! a) as [clock|]; [|reflexivity].
  unfold Dict.len, Dict.items. now rewrite length_map.
Qed.

Lemma new_collection_lookup period w :
  collections (snd (ClockCollection_init period w)) !! length (collections w)
  = Some (ClockCollection_fields period (environ w)).
Proof.
  unfold ClockCollection_init, bind, get, alloc_collection. simpl.
  rewrite lookup_app_r by lia. now rewrite Nat.sub_diag.
Qed.

End CollectionFacts.

(** X4. With every registered clock in the store, [print] returns, and all
    it changes is the output: it appends the header and then one line per
    record, clock by clock in the order of registration, so the number of
    lines written is one more than the number of records. *)
Theorem print_writes_header_then_records self w c :
  collections w !! self = Some c ->
  clocks_in_store w c = true ->
  ClockCollection_print self w
  = (Ok tt,
     set_stdout (stdout w ++ ClocksHeader
                   :: lines_of (clock_heap w) (Dict.values (clocks c))) w)
  /\ length (stdout (snd (ClockCollection_print self w)))
     = (length (stdout w) + 1
        + records_of (clock_heap w) (Dict.values (clocks c)))%nat.
Proof.
  intros Hc Hstore.
  destruct (ClockCollection_print_spec self w) as (res & o & Hrun & Hok).
  destruct (Hok c Hc Hstore) as [-> ->].
  split; [exact Hrun|].
  rewrite Hrun. simpl. rewrite length_app. simpl.
  rewrite lines_of_length. lia.
Qed.

Lemma print_writes_witness :
  ClockCollection_print _INTIME_CLOCKS timed_world
  = (Ok tt,
     set_stdout (stdout timed_world
                 ++ [ClocksHeader;
                     ClockLine "clock_0" "a" (inject_Z 100) 100 1])
                timed_world).
Proof.
  exact (proj1 (print_writes_header_then_records _INTIME_CLOCKS timed_world
                  (register_clock "main.py:10" 0%nat
                     (with_refresh_time (seconds 1200)
                        (ClockCollection_fields None [])))
                  ltac:(vm_compute; reflexivity)
                  ltac:(vm_compute; reflexivity))).
Defined.

(** X5. The first [update] of a collection that was just constructed
    always renders, whatever period the constructor computed (a number or
    the string of the environment): it writes the header alone and
    records the reading of the clock as the refresh time. *)
Theorem new_collection_renders_at_first_update (period : option Q) (w : World) :
  let self := length (collections w) in
  let w1 := snd (ClockCollection_init period w) in
  let w2 := snd (ClockCollection_update self w1) in
  fst (ClockCollection_init period w) = Ok self
  /\ fst (ClockCollection_update self w1) = Ok tt
  /\ stdout w2 = stdout w ++ [ClocksHeader]
  /\ refresh_time w2 self = Some (next_reading w)
  /\ clock_reads w2 = S (clock_reads w).
Proof.
  cbv zeta. split; [reflexivity|].
  pose proof (new_collection_lookup period w) as Hc.
  pose proof (ClockCollection_update_cases (length (collections w))
                (snd (ClockCollection_init period w))) as Hcases.
  rewrite Hc in Hcases. cbv zeta in Hcases.
  destruct Hcases as (res & o & Hprint & Hrun).
  destruct (print_returns _ _ _ res o Hc eq_refl Hprint) as [-> ->].
  rewrite Hrun. simpl fst. simpl snd.
  split; [reflexivity|]. split; [reflexivity|]. split; [|reflexivity].
  rewrite (refresh_time_lookup _ _ _ (refreshed_lookup _ _ _ _ Hc)).
  reflexivity.
Qed.

(** X6. A collection constructed with an explicit period [p] other than
    zero uses it: after its first refresh, the next [update] writes
    nothing while the clock has advanced by at most [p] seconds since the
    recorded reading, and renders once it has advanced by more. *)
Theorem explicit_period_drives_the_refresh (p : Q) (w : World) :
  ~ (p == 0)%Q ->
  let self := length (collections w) in
  let w1 := snd (ClockCollection_init (Some p) w) in
  let w2 := snd (ClockCollection_update self w1) in
  let w3 := snd (ClockCollection_update self w2) in
  refresh_time w2 self = Some (next_reading w)
  /\ fst (ClockCollection_update self w2) = Ok tt
  /\ ((next_reading w2 - next_reading w <= p)%Q ->
      stdout w3 = stdout w2 /\ refresh_time w3 self = Some (next_reading w))
  /\ ((p < next_reading w2 - next_reading w)%Q ->
      stdout w3 = stdout w2 ++ [ClocksHeader]
      /\ refresh_time w3 self
         = Some (seconds (perf_counter_source w (S (S (clock_reads w)))))).
Proof.
  intros Hp. cbv zeta.
  pose proof (new_collection_lookup (Some p) w) as Hc.
  set (self := length (collections w)) in *.
  set (w1 := snd (ClockCollection_init (Some p) w)) in *.
  set (c := ClockCollection_fields (Some p) (environ w)) in *.
  assert (Hperiod : _period c = PeriodFloat p)
    by (apply nonzero_period_is_kept; exact Hp).
  destruct (gate_step self w1 c p Hc Hperiod eq_refl)
    as (_ & Hheap & Hsrc & Hout & Hreads & Hc2).
  cbv zeta in *. change (_last_refresh_time_s c) with (@None Q) in *.
  set (w2 := snd (ClockCollection_update self w1)) in *.
  destruct (gate_with_refresh_time self w2
              (with_refresh_time (next_reading w1) c) p (next_reading w1)
              Hc2 Hperiod eq_refl eq_refl) as (Hok & Hin & Hdue).
  cbv zeta in *.
  split; [now rewrite (refresh_time_lookup _ _ _ Hc2)|].
  split; [exact Hok|]. split.
  - intros Hle. apply Hin. exact Hle.
  - intros Hlt. destruct (Hdue Hlt) as [Hstd Hrt]. split.
    + rewrite Hstd. reflexivity.
    + rewrite Hrt, Hsrc, Hreads. reflexivity.
Qed.

Lemma explicit_period_witness :
  let w1 := snd (ClockCollection_init (Some (5 # 1)%Q) slow_world) in
  let w2 := snd (ClockCollection_update 1%nat w1) in
  fst (ClockCollection_update 1%nat w2) = Ok tt.
Proof.
  exact (proj1 (proj2 (explicit_period_drives_the_refresh (5 # 1)%Q slow_world
                         ltac:(intros H; discriminate H)))).
Defined.

(** ** Clock: construction and the entry point *)

Section ConstructionFacts.

Lemma dict_len_set {V} (k : string) (v : V) (d : Dict.t V) :
  Dict.len (Dict.set k v d)
  = match Dict.get k d with
    | Some _ => Dict.len d
    | None => S (Dict.len d)
    end.
Proof.
  unfold Dict.len. induction d as [|[k' v'] d IH]; simpl; [reflexivity|].
  destruct (String.eqb k k'); simpl; [reflexivity|].
  rewrite IH. now destruct (Dict.get k d).
Qed.

(** The entry point at a call site that the collection does not hold:
    the world it leaves, where [ttn] does not appear. *)
Lemma tick_creates name coll ttn site w c :
  not_name name = true ->
  collections w !! collection_or_default coll = Some c ->
  Dict.get (site_key site) (clocks c) = None ->
  tick name coll ttn site w
  = (Ok (length (clock_heap w)),
     {| environ := environ w;
        perf_counter_source := perf_counter_source w;
        clock_reads := S (clock_reads w);
        stdout := stdout w;
        collections :=
          <[collection_or_default coll :=
              register_clock (site_key site) (length (clock_heap w)) c]>
            (collections w);
        clock_heap :=
          clock_heap w ++
          [{| collection := collection_or_default coll;
              name := "clock_" +:+ pretty (Dict.len (clocks c));
              _tick_frame_info := site;
              _unique_id := site_key site;
              aggregate_times := Dict.empty;
              _tick_time_ns := Some (next_reading_ns w) |}] |}).
Proof.
  intros Hname Hc Hkey.
  rewrite (tick_run name coll ttn site w c Hname Hc), Hkey.
  rewrite (bind_ok _ _ _ _ _
             (Clock_init_run name (Some (collection_or_default coll)) ttn
                             (Some site) tick_frame w c Hc)).
  cbn [collection_or_default frame_or].
  rewrite !(name_or_site name _ Hname).
  match goal with
  | |- (Clock_tick ?n ;; _) ?w' = _ =>
      rewrite (bind_ok _ _ _ _ _
                 (Clock_tick_run n w'
                    {| collection := collection_or_default coll;
                       name := "clock_" +:+ pretty (Dict.len (clocks c));
                       _tick_frame_info := site;
                       _unique_id := site_key site;
                       aggregate_times := Dict.empty;
                       _tick_time_ns := ttn |}
                    ltac:(unfold set_collections, set_clock_heap;
                          cbn [clock_heap];
                          rewrite lookup_app_r by lia;
                          now rewrite Nat.sub_diag)))
  end.
  unfold ret, set_clock_heap, set_collections, after_reading, set_clock_reads,
    next_reading_ns, set_tick_time.
  cbn [clock_heap collections environ perf_counter_source clock_reads stdout].
  rewrite insert_app_r_alt by lia. rewrite Nat.sub_diag. reflexivity.
Qed.

End ConstructionFacts.

(** X7. Constructing a [Clock] in a collection that is in the store
    returns a new clock, registered under its identity (the name, or the
    file and line of its tick frame), holding no record and the tick time
    it was given. The clocks already in the store are untouched, and the
    collection registers one identity more, unless the identity was
    already registered, in which case the new clock takes its place. *)
Theorem construction_registers_the_clock name coll ttn fi site w c :
  collections w !! collection_or_default coll = Some c ->
  let uid := name_or name (site_key (frame_or fi site)) in
  let self := length (clock_heap w) in
  let w' := snd (Clock_init name coll ttn fi site w) in
  fst (Clock_init name coll ttn fi site w) = Ok self
  /\ lookup_clock w' (collection_or_default coll) uid = Some self
  /\ (_unique_id <$> clock_heap w' !! self) = Some uid
  /\ (_tick_time_ns <$> clock_heap w' !! self) = Some ttn
  /\ (forall label, lookup_times w' self label = None)
  /\ (forall a, (a < self)%nat -> clock_heap w' !! a = clock_heap w !! a)
  /\ (Dict.len <$> (clocks <$> collections w' !! collection_or_default coll))
     = Some (match Dict.get uid (clocks c) with
             | Some _ => Dict.len (clocks c)
             | None => S (Dict.len (clocks c))
             end).
Proof.
  intros Hc. cbv zeta.
  rewrite (Clock_init_run name coll ttn fi site w c Hc).
  simpl fst. simpl snd.
  assert (Hlt : (collection_or_default coll < length (collections w))%nat)
    by (eapply lookup_lt_Some; exact Hc).
  unfold lookup_clock, lookup_times, set_collections, set_clock_heap.
  cbn [collections clock_heap].
  rewrite list_lookup_insert_eq by exact Hlt.
  rewrite lookup_app_r by lia. rewrite Nat.sub_diag.
  cbn [clocks register_clock].
  split; [reflexivity|]. split; [apply dict_get_set_eq|].
  split; [reflexivity|]. split; [reflexivity|].
  split; [intros label; reflexivity|]. split.
  - intros a Ha. now apply lookup_app_l.
  - cbn [fmap option_fmap option_map]. f_equal. apply dict_len_set.
Qed.

Lemma construction_witness :
  fst (Clock_init (Some "loader") None None None main_py_10 fresh_world)
  = Ok 0%nat
  /\ lookup_clock
       (snd (Clock_init (Some "loader") None None None main_py_10 fresh_world))
       _INTIME_CLOCKS "loader" = Some 0%nat.
Proof.
  pose proof (construction_registers_the_clock (Some "loader") None None None
                main_py_10 fresh_world (ClockCollection_fields None [])
                eq_refl) as H.
  cbv zeta in H. destruct H as (Hok & Hreg & _).
  split; [exact Hok | exact Hreg].
Defined.

(** X8. The [tick_time_ns] argument of the entry point has no effect: the
    tick that follows the lookup or the construction overwrites it, so
    two calls that differ only in that argument give the same result and
    the same world. *)
Theorem tick_argument_is_overwritten name coll ttn ttn' site w :
  tick name coll ttn site w = tick name coll ttn' site w.
Proof.
  destruct (not_name name) eqn:Hname;
    [|now rewrite !(tick_named name coll _ site w Hname)].
  destruct (collections w !! collection_or_default coll) as [c|] eqn:Hc;
    [|now rewrite !(tick_dangling name coll _ site w Hname Hc)].
  destruct (Dict.get (site_key site) (clocks c)) as [clock|] eqn:Hkey.
  - rewrite !(tick_run name coll _ site w c Hname Hc), Hkey. reflexivity.
  - now rewrite !(tick_creates name coll _ site w c Hname Hc Hkey).
Qed.

(** X9. When the entry point returns a clock, that clock is armed: its
    pending tick time is the reading the call took. The call reads the
    clock once and writes nothing. *)
Theorem tick_arms_the_clock name coll ttn site w a w1 :
  tick name coll ttn site w = (Ok a, w1) ->
  (_tick_time_ns <$> clock_heap w1 !! a) = Some (Some (next_reading_ns w))
  /\ clock_reads w1 = S (clock_reads w)
  /\ stdout w1 = stdout w.
Proof.
  intros Hrun.
  destruct (not_name name) eqn:Hname;
    [|rewrite (tick_named name coll ttn site w Hname) in Hrun; discriminate].
  destruct (collections w !! collection_or_default coll) as [c|] eqn:Hc;
    [|rewrite (tick_dangling name coll ttn site w Hname Hc) in Hrun;
      discriminate].
  destruct (Dict.get (site_key site) (clocks c)) as [clock|] eqn:Hkey.
  - rewrite (tick_run name coll ttn site w c Hname Hc), Hkey in Hrun.
    destruct (clock_heap w !! clock) as [cl|] eqn:Hcl.
    + rewrite (bind_ok _ _ _ _ _ (Clock_tick_run clock w cl Hcl)) in Hrun.
      injection Hrun as <- <-.
      unfold set_clock_heap. cbn [clock_heap clock_reads stdout].
      rewrite list_lookup_insert_eq by (eapply lookup_lt_Some; exact Hcl).
      auto.
    + rewrite (bind_raise _ _ _ _ _ (Clock_tick_dangling clock w Hcl)) in Hrun.
      discriminate.
  - rewrite (tick_creates name coll ttn site w c Hname Hc Hkey) in Hrun.
    injection Hrun as <- <-. cbn [clock_heap clock_reads stdout].
    rewrite lookup_app_r by lia. rewrite Nat.sub_diag. auto.
Qed.

Lemma tick_arms_witness :
  (_tick_time_ns <$> clock_heap ticked_world !! 0%nat) = Some (Some 1000).
Proof.
  exact (proj1 (tick_arms_the_clock None None None main_py_10
                  (import_timer [] nanoseconds) 0%nat ticked_world
                  ltac:(vm_compute; reflexivity))).
Defined.

(** ** Identities: the file and line of a call site *)

Section SiteKeys.
Import Stdlib.Strings.Ascii.

(** A string that holds no colon cannot be split around one. *)
Lemma no_colon_nil s1 s2 : "" <> s1 +:+ ":" +:+ s2.
Proof. destruct s1; discriminate. Qed.

Lemma no_colon_cons (a : Ascii.ascii) (s : string) :
  a <> ":"%char ->
  (forall s1 s2, s <> s1 +:+ ":" +:+ s2) ->
  forall s1 s2, String a s <> s1 +:+ ":" +:+ s2.
Proof.
  intros Ha Hs [|b s1] s2 Heq; cbn [String.app String.append] in Heq.
  - injection Heq as Hhead _. contradiction.
  - injection Heq as _ Htail. exact (Hs s1 s2 Htail).
Qed.

Lemma digit_is_no_colon (x : N) : pretty_N_char x <> ":"%char.
Proof. unfold pretty_N_char. repeat case_match; discriminate. Qed.

Lemma pretty_N_go_no_colon (x : N) : forall s,
  (forall s1 s2, s <> s1 +:+ ":" +:+ s2) ->
  forall s1 s2, pretty_N_go x s <> s1 +:+ ":" +:+ s2.
Proof.
  induction (N.lt_wf_0 x) as [x _ IH]; intros s Hs.
  assert (x = 0 \/ 0 < x)%N as [->|Hpos] by lia.
  - now rewrite pretty_N_go_0.
  - rewrite pretty_N_go_step by exact Hpos.
    apply IH; [now apply N.div_lt|].
    apply no_colon_cons; [apply digit_is_no_colon | exact Hs].
Qed.

Lemma pretty_N_no_colon (x : N) s1 s2 : pretty x <> s1 +:+ ":" +:+ s2.
Proof.
  unfold pretty, pretty_N. destruct (decide (x = 0%N)).
  - apply no_colon_cons; [discriminate | apply no_colon_nil].
  - apply pretty_N_go_no_colon. apply no_colon_nil.
Qed.

Lemma pretty_Z_no_colon (z : Z) s1 s2 : pretty z <> s1 +:+ ":" +:+ s2.
Proof.
  destruct z as [|p|p]; unfold pretty, pretty_Z.
  - apply no_colon_cons; [discriminate | apply no_colon_nil].
  - apply (pretty_N_no_colon (N.pos p)).
  - apply no_colon_cons; [discriminate|].
    apply (pretty_N_no_colon (N.pos p)).
Qed.

(** The last colon splits a key: what follows it holds none. *)
Lemma split_at_last_colon (f1 : string) : forall f2 p1 p2,
  (forall s1 s2, p1 <> s1 +:+ ":" +:+ s2) ->
  (forall s1 s2, p2 <> s1 +:+ ":" +:+ s2) ->
  f1 +:+ ":" +:+ p1 = f2 +:+ ":" +:+ p2 ->
  f1 = f2 /\ p1 = p2.
Proof.
  induction f1 as [|a f1 IH]; intros [|b f2] p1 p2 H1 H2 Heq;
    cbn [String.app String.append] in Heq.
  - injection Heq as Hp. auto.
  - injection Heq as _ Hp. exfalso. exact (H1 f2 p2 Hp).
  - injection Heq as _ Hp. exfalso. exact (H2 f1 p1 (eq_sym Hp)).
  - injection Heq as Hhead Htail.
    destruct (IH f2 p1 p2 H1 H2 Htail) as [Hf Hp]. subst. auto.
Qed.

Lemma site_key_inj fi1 fi2 : site_key fi1 = site_key fi2 -> fi1 = fi2.
Proof.
  destruct fi1 as [f1 l1], fi2 as [f2 l2]. unfold site_key. simpl.
  intros Heq.
  destruct (split_at_last_colon f1 f2 (pretty l1) (pretty l2)
              (pretty_Z_no_colon l1) (pretty_Z_no_colon l2) Heq) as [-> Hl].
  apply (inj pretty) in Hl. now subst.
Qed.

(** The entry point leaves every registration but that of its own call
    site as it was. *)
Lemma tick_leaves_other_sites name coll ttn site w b uid :
  collection_or_default coll <> b \/ site_key site <> uid ->
  lookup_clock (snd (tick name coll ttn site w)) b uid = lookup_clock w b uid.
Proof.
  intros Hother.
  destruct (not_name name) eqn:Hname;
    [|now rewrite (tick_named name coll ttn site w Hname)].
  destruct (collections w !! collection_or_default coll) as [c|] eqn:Hc;
    [|now rewrite (tick_dangling name coll ttn site w Hname Hc)].
  destruct (Dict.get (site_key site) (clocks c)) as [clock|] eqn:Hkey.
  - rewrite (tick_run name coll ttn site w c Hname Hc), Hkey.
    rewrite snd_then_ret.
    destruct (Clock_tick_frame clock w) as (Hcoll & _).
    cbv zeta in Hcoll. unfold lookup_clock. now rewrite Hcoll.
  - rewrite (tick_creates name coll ttn site w c Hname Hc Hkey).
    unfold lookup_clock. cbn [snd collections].
    destruct (decide (collection_or_default coll = b)) as [Heq|Hne].
    + subst b. destruct Hother as [Hne|Hne]; [congruence|].
      rewrite list_lookup_insert_eq by (eapply lookup_lt_Some; exact Hc).
      rewrite Hc. cbn [clocks register_clock]. now apply dict_get_set_ne.
    + now rewrite list_lookup_insert_ne by exact Hne.
Qed.

End SiteKeys.

(** X10. Two call sites that differ in their file or their line have
    different identities: the key [file:line] determines both. *)
Theorem distinct_sites_have_distinct_keys (fi1 fi2 : FrameInfo) :
  fi1 <> fi2 -> site_key fi1 <> site_key fi2.
Proof. intros Hne Heq. apply Hne. now apply site_key_inj. Qed.

Lemma distinct_sites_witness : site_key main_py_10 <> site_key main_py_12.
Proof.
  exact (distinct_sites_have_distinct_keys main_py_10 main_py_12
           ltac:(discriminate)).
Defined.

(** X11. After the entry point has returned a clock for one call site, a
    call without a name from another call site that the collection does
    not hold yet returns a new clock, different from the first, and both
    call sites then name their own clock. *)
Theorem new_call_site_gets_a_new_clock n1 n2 coll t1 t2 s1 s2 w a1 w1 :
  not_name n1 = true ->
  not_name n2 = true ->
  s1 <> s2 ->
  tick n1 coll t1 s1 w = (Ok a1, w1) ->
  lookup_clock w (collection_or_default coll) (site_key s2) = None ->
  let second := tick n2 coll t2 s2 w1 in
  fst second = Ok (length (clock_heap w1))
  /\ a1 <> length (clock_heap w1)
  /\ lookup_clock (snd second) (collection_or_default coll) (site_key s1)
     = Some a1
  /\ lookup_clock (snd second) (collection_or_default coll) (site_key s2)
     = Some (length (clock_heap w1)).
Proof.
  intros Hn1 Hn2 Hsites Hfirst Hfree. cbv zeta.
  destruct (tick_registers n1 coll t1 s1 w a1 w1 Hn1 Hfirst) as (Hheld & Hlt).
  assert (Hkeys : site_key s1 <> site_key s2).
  { intros Heq. apply Hsites. now apply site_key_inj. }
  assert (Hfree1 : lookup_clock w1 (collection_or_default coll) (site_key s2)
                   = None).
  { replace w1 with (snd (tick n1 coll t1 s1 w)) by now rewrite Hfirst.
    rewrite tick_leaves_other_sites; [exact Hfree | now right]. }
  unfold lookup_clock in Hheld, Hfree1.
  destruct (collections w1 !! collection_or_default coll) as [c1|] eqn:Hc1;
    [|discriminate].
  rewrite (tick_creates n2 coll t2 s2 w1 c1 Hn2 Hc1 Hfree1).
  cbn [fst snd]. split; [reflexivity|]. split; [lia|].
  unfold lookup_clock. cbn [collections].
  rewrite list_lookup_insert_eq by (eapply lookup_lt_Some; exact Hc1).
  cbn [clocks register_clock]. split.
  - rewrite dict_get_set_ne by congruence. exact Hheld.
  - apply dict_get_set_eq.
Qed.

Lemma new_call_site_witness :
  fst (tick None None None main_py_12 ticked_world) = Ok 1%nat.
Proof.
  exact (proj1 (new_call_site_gets_a_new_clock None None None None None
                  main_py_10 main_py_12 (import_timer [] nanoseconds)
                  0%nat ticked_world eq_refl eq_refl ltac:(discriminate)
                  ltac:(vm_compute; reflexivity)
                  ltac:(vm_compute; reflexivity))).
Defined.

(** ** Clock.tock: what it touches *)

Section TockFacts.

Lemma lookup_times_with_times_other self c label r w a label' :
  clock_heap w !! self = Some c ->
  a <> self \/ label' <> label ->
  lookup_times (with_times self c label r w) a label' = lookup_times w a label'.
Proof.
  intros Hc Hother. unfold lookup_times, with_times, set_clock_heap.
  cbn [clock_heap].
  destruct (decide (self = a)) as [Heq|Hne].
  - subst a. destruct Hother as [Hne|Hne]; [congruence|].
    rewrite list_lookup_insert_eq by (eapply lookup_lt_Some; exact Hc).
    rewrite Hc. cbn [aggregate_times set_aggregate_times].
    apply dict_get_set_ne. congruence.
  - now rewrite list_lookup_insert_ne by exact Hne.
Qed.

(** The clock at [self] after [tock]: the same clock, with other
    records at most. *)
Lemma tock_clock_after self name site w c :
  clock_heap w !! self = Some c ->
  exists d,
    clock_heap (snd (Clock_tock self name site w)) !! self
    = Some (set_aggregate_times d c).
Proof.
  intros Hc. rewrite (Clock_tock_run self name site w c Hc). cbv zeta.
  assert (Hlt : (self < length (clock_heap w))%nat)
    by (eapply lookup_lt_Some; exact Hc).
  assert (Hstored : forall r,
    clock_heap (with_times self c (tock_label c name site) r (after_reading w))
      !! self
    = Some (set_aggregate_times
              (Dict.set (tock_label c name site) r (aggregate_times c)) c)).
  { intros r. unfold with_times, set_clock_heap. cbn [clock_heap].
    now apply list_lookup_insert_eq. }
  assert (Hrefresh : forall r,
    clock_heap
      (snd ((ClockCollection_update (collection c) ;; ret (next_reading_ns w))
              (with_times self c (tock_label c name site) r (after_reading w))))
      !! self
    = Some (set_aggregate_times
              (Dict.set (tock_label c name site) r (aggregate_times c)) c)).
  { intros r. rewrite snd_then_ret.
    destruct (ClockCollection_update_frame (collection c)
                (with_times self c (tock_label c name site) r
                            (after_reading w))) as (Hheap & _).
    cbv zeta in Hheap. rewrite Hheap. apply Hstored. }
  destruct (Dict.get (tock_label c name site) (aggregate_times c)) as [r|].
  - destruct (fst (update (next_reading_ns w) r)) as [[]|e].
    + eexists. apply Hrefresh.
    + eexists. simpl snd. apply Hstored.
  - destruct (_tick_time_ns c) as [t|].
    + eexists. apply Hrefresh.
    + exists (aggregate_times c). simpl snd.
      unfold after_reading, set_clock_reads. cbn [clock_heap].
      rewrite Hc. now destruct c.
Qed.

Lemma dict_set_in {V} (k : string) (v : V) (d : Dict.t V) :
  In (k, v) (Dict.set k v d).
Proof.
  induction d as [|[k' v'] d IH]; simpl; [now left|].
  destruct (String.eqb_spec k k') as [->|Hne]; [now left | now right].
Qed.

End TockFacts.

Lemma tock_other_records self name site w c a label :
  clock_heap w !! self = Some c ->
  a <> self \/ label <> tock_label c name site ->
  lookup_times (snd (Clock_tock self name site w)) a label
  = lookup_times w a label.
Proof.
  intros Hc Hother. rewrite (Clock_tock_run self name site w c Hc). cbv zeta.
  assert (Hstored : forall r,
    lookup_times (with_times self c (tock_label c name site) r
                             (after_reading w)) a label
    = lookup_times w a label).
  { intros r.
    now rewrite (lookup_times_with_times_other self c _ r (after_reading w)
                   a label Hc Hother). }
  destruct (Dict.get (tock_label c name site) (aggregate_times c)) as [r|].
  - destruct (fst (update (next_reading_ns w) r)) as [[]|e].
    + rewrite lookup_times_after_refresh. apply Hstored.
    + simpl snd. apply Hstored.
  - destruct (_tick_time_ns c) as [t|].
    + rewrite lookup_times_after_refresh. apply Hstored.
    + reflexivity.
Qed.

(** X12. A [tock] changes one record at most, the one under its label in
    its own clock: the records of the other clocks, and of the other
    labels of that clock, are as they were, whether the call returns or
    raises. *)
Theorem tock_touches_one_record self name site w c a label :
  clock_heap w !! self = Some c ->
  a <> self \/ label <> tock_label c name site ->
  lookup_times (snd (Clock_tock self name site w)) a label
  = lookup_times w a label.
Proof. apply tock_other_records. Qed.

Lemma tock_touches_one_record_witness :
  lookup_times (snd (Clock_tock 0%nat (Some "b") main_py_12 timed_world))
               0%nat "a"
  = Some (first_sample 100).
Proof.
  exact (tock_touches_one_record 0%nat (Some "b") main_py_12 timed_world
           timed_clock 0%nat "a" ltac:(vm_compute; reflexivity)
           ltac:(right; discriminate)).
Defined.

(** X13. A [tock] does not consume the pending tick: the tick time stays,
    so two tocks under two different new labels after one tick both
    record the time elapsed since that same tick. *)
Theorem tock_keeps_the_pending_tick self n1 s1 n2 s2 w c t :
  clock_heap w !! self = Some c ->
  _tick_time_ns c = Some t ->
  Dict.get (tock_label c n1 s1) (aggregate_times c) = None ->
  Dict.get (tock_label c n2 s2) (aggregate_times c) = None ->
  tock_label c n1 s1 <> tock_label c n2 s2 ->
  let w1 := snd (Clock_tock self n1 s1 w) in
  let w2 := snd (Clock_tock self n2 s2 w1) in
  (_tick_time_ns <$> clock_heap w1 !! self) = Some (Some t)
  /\ (_tick_time_ns <$> clock_heap w2 !! self) = Some (Some t)
  /\ lookup_times w2 self (tock_label c n1 s1)
     = Some (first_sample (next_reading_ns w - t))
  /\ lookup_times w2 self (tock_label c n2 s2)
     = Some (first_sample (next_reading_ns w1 - t)).
Proof.
  intros Hc Ht Hnew1 Hnew2 Hlabels. cbv zeta.
  destruct (tock_clock_after self n1 s1 w c Hc) as (d1 & Hc1).
  set (w1 := snd (Clock_tock self n1 s1 w)) in *.
  set (c1 := set_aggregate_times d1 c) in *.
  destruct (tock_clock_after self n2 s2 w1 c1 Hc1) as (d2 & Hc2).
  assert (Hfirst : lookup_times w1 self (tock_label c n1 s1)
                   = Some (first_sample (next_reading_ns w - t)))
    by (apply (tock_new_label self n1 s1 w c t Hc Hnew1 Ht)).
  assert (Hfree : lookup_times w1 self (tock_label c n2 s2) = None).
  { unfold w1.
    rewrite (tock_other_records self n1 s1 w c self _ Hc);
      [|right; congruence].
    unfold lookup_times. now rewrite Hc. }
  split; [rewrite Hc1; simpl; now rewrite Ht|].
  split; [rewrite Hc2; simpl; now rewrite Ht|]. split.
  - rewrite (tock_other_records self n2 s2 w1 c1 self _ Hc1);
      [exact Hfirst | right; exact Hlabels].
  - apply (tock_new_label self n2 s2 w1 c1 t Hc1); [|exact Ht].
    unfold lookup_times in Hfree. rewrite Hc1 in Hfree. exact Hfree.
Qed.

Lemma tock_keeps_the_pending_tick_witness :
  let w1 := snd (Clock_tock 0%nat (Some "a") main_py_12 ticked_world) in
  let w2 := snd (Clock_tock 0%nat (Some "b") main_py_12 w1) in
  lookup_times w2 0%nat "a" = Some (first_sample (1100 - 1000))
  /\ lookup_times w2 0%nat "b" = Some (first_sample (1300 - 1000)).
Proof.
  pose proof (tock_keeps_the_pending_tick 0%nat (Some "a") main_py_12
                (Some "b") main_py_12 ticked_world
                {| collection := _INTIME_CLOCKS; name := "clock_0";
                   _tick_frame_info := main_py_10; _unique_id := "main.py:10";
                   aggregate_times := []; _tick_time_ns := Some 1000 |}
                1000 ltac:(vm_compute; reflexivity) eq_refl eq_refl eq_refl
                ltac:(discriminate)) as H.
  cbv zeta in H. destruct H as (_ & _ & Ha & Hb).
  split; [exact Ha | exact Hb].
Defined.

(** X14. Without a name, the label of a [tock] is derived from its call
    site: for one clock and one file, two calls on different lines get
    different labels, hence separate records. *)
Theorem default_labels_differ_by_line (c : Clock) (file : string) (l1 l2 : Z) :
  l1 <> l2 ->
  tock_label c None {| filename := file; lineno := l1 |}
  <> tock_label c None {| filename := file; lineno := l2 |}.
Proof.
  intros Hne Heq. apply Hne. unfold tock_label in Heq. simpl in Heq.
  do 4 apply (inj (String.app _)) in Heq.
  now apply (inj pretty) in Heq.
Qed.

Lemma default_labels_witness :
  tock_label timed_clock None main_py_10
  <> tock_label timed_clock None main_py_12.
Proof.
  exact (default_labels_differ_by_line timed_clock "main.py" 10 12
           ltac:(discriminate)).
Defined.

(** X15. The refresh comes after the fold: on a collection that was never
    refreshed, the first [tock] of a ticked clock under a new label
    returns the reading, and what it prints is the state that already
    holds the new record. When the clock is registered in the collection,
    the line of the new record (average and last equal to the elapsed
    time, count 1) is in the output. *)
Theorem first_tock_prints_the_new_record self nm site w c t coll :
  clock_heap w !! self = Some c ->
  Dict.get (tock_label c nm site) (aggregate_times c) = None ->
  _tick_time_ns c = Some t ->
  collections w !! collection c = Some coll ->
  _last_refresh_time_s coll = None ->
  clocks_in_store w coll = true ->
  let dt := next_reading_ns w - t in
  let w' := snd (Clock_tock self nm site w) in
  fst (Clock_tock self nm site w) = Ok (next_reading_ns w)
  /\ stdout w'
     = stdout w ++ ClocksHeader
         :: lines_of (clock_heap w') (Dict.values (clocks coll))
  /\ (In self (Dict.values (clocks coll)) ->
      In (ClockLine (name c) (tock_label c nm site) (inject_Z dt) dt 1)
         (stdout w')).
Proof.
  intros Hc Hnew Ht Hcoll Hlast Hstore. cbv zeta.
  rewrite (Clock_tock_run self nm site w c Hc). cbv zeta.
  rewrite Hnew, Ht.
  set (label := tock_label c nm site).
  set (dt := next_reading_ns w - t).
  set (w2 := with_times self c label (first_sample dt) (after_reading w)).
  assert (Hc2 : clock_heap w2 !! self
                = Some (set_aggregate_times
                          (Dict.set label (first_sample dt) (aggregate_times c))
                          c)).
  { unfold w2, with_times, set_clock_heap. cbn [clock_heap].
    apply list_lookup_insert_eq. eapply lookup_lt_Some; exact Hc. }
  assert (Hstore2 : clocks_in_store w2 coll = true).
  { unfold clocks_in_store in *. unfold w2, with_times, set_clock_heap.
    cbn [clock_heap]. rewrite length_insert. exact Hstore. }
  pose proof (ClockCollection_update_cases (collection c) w2) as Hcases.
  change (collections w2) with (collections w) in Hcases.
  rewrite Hcoll in Hcases. cbv zeta in Hcases.
  destruct Hcases as (res & o & Hcases). rewrite Hlast in Hcases.
  destruct Hcases as [Hprint Hrun].
  destruct (print_returns (collection c) w2 coll res o Hcoll Hstore2 Hprint)
    as [-> ->].
  unfold bind. rewrite Hrun. cbn [fst snd ret].
  unfold refreshed. cbn [stdout clock_heap set_collections set_clock_reads
                         set_stdout].
  split; [reflexivity|]. split; [reflexivity|].
  intros Hreg. apply in_or_app. right. right.
  unfold lines_of. apply in_flat_map. exists self. split; [exact Hreg|].
  rewrite Hc2. cbn [aggregate_times set_aggregate_times].
  apply in_map_iff. exists (label, first_sample dt). split.
  - reflexivity.
  - apply dict_set_in.
Qed.

Lemma first_tock_prints_witness :
  stdout (snd (Clock_tock 0%nat (Some "a") main_py_12 ticked_world))
  = [ClocksHeader; ClockLine "clock_0" "a" (inject_Z 100) 100 1].
Proof.
  pose proof (first_tock_prints_the_new_record 0%nat (Some "a") main_py_12
                ticked_world
                {| collection := _INTIME_CLOCKS; name := "clock_0";
                   _tick_frame_info := main_py_10; _unique_id := "main.py:10";
                   aggregate_times := []; _tick_time_ns := Some 1000 |}
                1000
                (register_clock "main.py:10" 0%nat
                   (ClockCollection_fields None []))
                ltac:(vm_compute; reflexivity) eq_refl eq_refl
                ltac:(vm_compute; reflexivity) eq_refl
                ltac:(vm_compute; reflexivity)) as H.
  cbv zeta in H. destruct H as (_ & Hout & _).
  rewrite Hout. vm_compute. reflexivity.
Defined.

(** ** StandardRenderer: what configuration keeps and replaces *)

Section ConfigurationFacts.
Import Renderers.

Variable parse : string -> list parsed_item * option exn.

(** The loop of [set_format] writes the two lists of names only. *)
Lemma check_items_keep_settings (items : list parsed_item) : forall r,
  let r' := snd (for_each items check_item r) in
  _format r' = _format r
  /\ _max_terms r' = _max_terms r
  /\ _out r' = _out r
  /\ _no_update r' = _no_update r
  /\ _has_printed r' = _has_printed r.
Proof.
  induction items as [|it items IH]; intros r; cbv zeta.
  - simpl. auto.
  - cbn [for_each]. rewrite check_item_then.
    destruct (field_name it) as [f|]; [|apply IH].
    destruct (is_key f FIELDS); [apply (IH (append_field f r))|].
    destruct (is_key f TIME_FIELDS); [apply (IH (append_time_field f r))|].
    simpl. auto.
Qed.

(** What [set_format] leaves of the renderer it was called on. *)
Lemma set_format_settings (format : string) (r0 : StandardRenderer) :
  let r' := snd (set_format parse format r0) in
  _format r' = Dict.get_default format format FORMATS
  /\ _max_terms r' = _max_terms r0
  /\ _out r' = _out r0
  /\ _no_update r' = _no_update r0
  /\ _has_printed r'
     = match fst (set_format parse format r0) with
       | Ok _ => Some 0
       | Raise _ => _has_printed r0
       end.
Proof.
  cbv zeta. unfold set_format.
  set (template := Dict.get_default format format FORMATS).
  rewrite (bind_ok _ _ _ tt (reset_format template r0)) by reflexivity.
  destruct (check_items_keep_settings (fst (parse template))
              (reset_format template r0)) as (Hf & Hm & Ho & Hn & Hp).
  cbv zeta in *. unfold bind.
  destruct (for_each (fst (parse template)) check_item
                     (reset_format template r0)) as [[[]|e] r1];
    simpl in *.
  - destruct (snd (parse template)); simpl; auto.
  - auto.
Qed.


End ConfigurationFacts.

(** X16. [set_format] overwrites the format before it checks it: when it
    raises, the renderer is left holding the rejected format, while its
    options and its count of printed lines are as before; when it
    returns, the count of printed lines is reset to 0. *)
Theorem rejected_format_is_left_in_place
    (parse : string -> list Renderers.parsed_item * option exn)
    (format : string) (r0 : Renderers.StandardRenderer) :
  let r' := snd (Renderers.set_format parse format r0) in
  Renderers._format r' = Dict.get_default format format Renderers.FORMATS
  /\ Renderers._max_terms r' = Renderers._max_terms r0
  /\ Renderers._out r' = Renderers._out r0
  /\ Renderers._no_update r' = Renderers._no_update r0
  /\ Renderers._has_printed r'
     = match fst (Renderers.set_format parse format r0) with
       | Ok _ => Some 0
       | Raise _ => Renderers._has_printed r0
       end.
Proof. apply set_format_settings. Qed.

(** X17. Configuring again replaces the lists of field names, it does not
    add to them: when a format configures, the renderer it leaves is the
    same whether or not another format was set before, accepted or not. *)
Theorem reconfiguration_replaces_the_fields
    (parse : string -> list Renderers.parsed_item * option exn)
    (first second : string) (r0 : Renderers.StandardRenderer) :
  fst (Renderers.set_format parse second r0) = Ok tt ->
  Renderers.set_format parse second
    (snd (Renderers.set_format parse first r0))
  = Renderers.set_format parse second r0.
Proof.
  intros Hok.
  destruct (set_format_settings parse first r0) as (_ & Hm & Ho & Hn & _).
  cbv zeta in *.
  set (r1 := snd (Renderers.set_format parse first r0)) in *.
  rewrite (set_format_spec parse second r0) in Hok |- *.
  rewrite (set_format_spec parse second r1).
  cbv zeta in *.
  destruct (forallb Renderers.recognized _); [|discriminate].
  destruct (snd (parse _)); [discriminate|].
  f_equal. unfold Renderers.set_has_printed, Renderers.with_fields,
    Renderers.reset_format. simpl. now rewrite Hm, Ho, Hn.
Qed.

Lemma reconfiguration_witness :
  Renderers.set_format Renderers.parse_mean_count "{mean} of {count}"
    (snd (Renderers.set_format Renderers.parse_mean_count "long"
            Renderers.blank))
  = Renderers.set_format Renderers.parse_mean_count "{mean} of {count}"
      Renderers.blank.
Proof.
  exact (reconfiguration_replaces_the_fields Renderers.parse_mean_count
           "long" "{mean} of {count}" Renderers.blank eq_refl).
Defined.



(** ** StandardRenderer.render: what is written *)

Section RenderFacts.
Import Renderers Console.

Variable clock : Type.
Variable render_times : StandardRenderer -> clock -> list string.
Variable has_tqdm : bool.






End RenderFacts.







(** ** A period read from the environment *)

(** X22. When the period of the collection is the string of the
    environment and a refresh time is recorded, the [tock] of a ticked
    clock under a new label raises [TypeError] at the refresh, after the
    fold: the record is there, nothing is printed and the refresh time
    stays. *)
Theorem environment_period_breaks_the_tock self nm site w c t coll s last :
  clock_heap w !! self = Some c ->
  Dict.get (tock_label c nm site) (aggregate_times c) = None ->
  _tick_time_ns c = Some t ->
  collections w !! collection c = Some coll ->
  _period coll = PeriodStr s ->
  _last_refresh_time_s coll = Some last ->
  let w' := snd (Clock_tock self nm site w) in
  fst (Clock_tock self nm site w) = Raise TypeError
  /\ lookup_times w' self (tock_label c nm site)
     = Some (first_sample (next_reading_ns w - t))
  /\ stdout w' = stdout w
  /\ refresh_time w' (collection c) = Some last
  /\ clock_reads w' = S (S (clock_reads w)).
Proof.
  intros Hc Hnew Ht Hcoll Hperiod Hlast. cbv zeta.
  split; [|split].
  2: { now apply (tock_new_label self nm site w c t). }
  all: rewrite (Clock_tock_run self nm site w c Hc); cbv zeta;
    rewrite Hnew, Ht;
    pose proof (ClockCollection_update_cases (collection c)
                  (with_times self c (tock_label c nm site)
                     (first_sample (next_reading_ns w - t))
                     (after_reading w))) as Hcases;
    change (collections (with_times self c (tock_label c nm site)
                           (first_sample (next_reading_ns w - t))
                           (after_reading w)))
      with (collections w) in Hcases;
    rewrite Hcoll in Hcases; cbv zeta in Hcases;
    destruct Hcases as (res & o & Hcases);
    rewrite Hlast, Hperiod in Hcases;
    unfold bind; rewrite Hcases.
  - reflexivity.
  - cbn [snd]. split; [reflexivity|]. split; [|reflexivity].
    unfold refresh_time. cbn [collections set_clock_reads with_times
                              set_clock_heap after_reading].
    now rewrite Hcoll, Hlast.
Qed.

Lemma environment_period_witness :
  let w1 := run_calls [CallTick None None None main_py_10;
                       CallClockTock 0%nat (Some "a") main_py_12]
                      overridden_world in
  fst (Clock_tock 0%nat (Some "b") main_py_12 w1) = Raise TypeError
  /\ lookup_times (snd (Clock_tock 0%nat (Some "b") main_py_12 w1)) 0%nat "b"
     = Some (first_sample 3000000000).
Proof.
  cbv zeta.
  pose proof (environment_period_breaks_the_tock 0%nat (Some "b") main_py_12
                (run_calls [CallTick None None None main_py_10;
                            CallClockTock 0%nat (Some "a") main_py_12]
                           overridden_world)
                {| collection := _INTIME_CLOCKS; name := "clock_0";
                   _tick_frame_info := main_py_10; _unique_id := "main.py:10";
                   aggregate_times := [("a", first_sample 1000000000)];
                   _tick_time_ns := Some 0 |}
                0
                (register_clock "main.py:10" 0%nat
                   (with_refresh_time (seconds 2000000000)
                      (ClockCollection_fields None
                         [("TICKTOCK_DEFAULT_PERIOD", "0.5")])))
                "0.5" (seconds 2000000000)
                ltac:(vm_compute; reflexivity) eq_refl eq_refl
                ltac:(vm_compute; reflexivity) eq_refl eq_refl) as H.
  cbv zeta in H. destruct H as (Hres & Hrec & _).
  split; [exact Hres | exact Hrec].
Defined.
